(** * A user-account service: the authentication and authorization gate

    Shallow embedding of the two variants of the Express application:
    - [src/index.js]          the PostgreSQL variant (module [Pg]),
    - [src/unnamed/part_000]  the MariaDB/MySQL variant (module [My]).

    External collaborators (bcrypt, jsonwebtoken, the SQL engine, the clock)
    are not part of the repository.  The two libraries are taken as a
    capability interface ([Platform]); the [users] table is a list of
    records with the constraints the specification states; the clock and the
    availability of the store are inputs of every request ([Env]). *)

From Stdlib Require Import ZArith Lia.
From stdpp Require Import base strings list gmap pretty.

Open Scope Z_scope.

(** ** JavaScript values *)

(** The values carried by the fields of a parsed JSON body, by the columns of
    a row and by the claims of a token.  Nested arrays and objects in field
    position are not modelled; numbers are integers. *)
Inductive Scalar :=
| JUndefined
| JNull
| JBool (b : bool)
| JNum (z : Z)
| JStr (s : string).

#[global] Instance Scalar_eq_dec : EqDecision Scalar.
Proof. solve_decision. Defined.

(** A JavaScript object with scalar properties. *)
Abbreviation Obj := (gmap string Scalar).

(** [o.k]: a property that is not there reads as [undefined]. *)
Definition prop (o : Obj) (k : string) : Scalar := default JUndefined (o !! k).

(** ToBoolean: [!v] is [negb (truthy v)]. *)
Definition truthy (v : Scalar) : bool :=
  match v with
  | JUndefined | JNull => false
  | JBool b => b
  | JNum z => negb (z =? 0)
  | JStr s => negb (String.eqb s "")
  end.

(** A string of the model is the UTF-8 encoding of the JavaScript string (as
    the literals of this file are).  [utf16_units c] is what the byte [c]
    adds to the number of UTF-16 code units of the string: a continuation
    byte (10xxxxxx) adds nothing, the first byte of a sequence of one, two or
    three bytes adds one unit, the first byte of a sequence of four bytes
    adds the two units of a surrogate pair. *)
Definition utf16_units (c : Ascii.ascii) : nat :=
  let n := Ascii.nat_of_ascii c in
  if (n <? 128)%nat then 1%nat
  else if (n <? 192)%nat then 0%nat
  else if (n <? 240)%nat then 1%nat
  else 2%nat.

(** [s.length]: the number of UTF-16 code units of the string. *)
Fixpoint js_length (s : string) : nat :=
  match s with
  | EmptyString => 0%nat
  | String c rest => (utf16_units c + js_length rest)%nat
  end.

(** [v.length < n] for a truthy [v]: only a string has a [length]; on a number
    or a boolean the property is [undefined], and [undefined < n] is false. *)
Definition length_lt (v : Scalar) (n : nat) : bool :=
  match v with
  | JStr s => (js_length s <? n)%nat
  | _ => false
  end.

(** [v === 'lit'] *)
Definition is_str (v : Scalar) (lit : string) : bool :=
  match v with
  | JStr s => String.eqb s lit
  | _ => false
  end.

(** [String.prototype.split] on a one-character separator: never empty. *)
Fixpoint split (sep : Ascii.ascii) (s : string) : list string :=
  match s with
  | EmptyString => [EmptyString]
  | String c rest =>
      if Ascii.eqb c sep then EmptyString :: split sep rest
      else match split sep rest with
           | [] => [String c EmptyString]
           | piece :: pieces => String c piece :: pieces
           end
  end.

(** No occurrence of the separator. *)
Fixpoint free_of (sep : Ascii.ascii) (s : string) : bool :=
  match s with
  | EmptyString => true
  | String c rest => negb (Ascii.eqb c sep) && free_of sep rest
  end.

(** ** Errors and the handler monad *)

(** A thrown error; [code] is [err.code] ([None] when the property is absent). *)
Record Err := mkErr { code : option string; message : string }.

Inductive Result (A : Type) :=
| Ok (a : A)
| Throw (e : Err).
Arguments Ok {A} a.
Arguments Throw {A} e.

(** [err.code === lit] *)
Definition code_is (e : Err) (lit : string) : bool :=
  match code e with
  | Some c => String.eqb c lit
  | None => false
  end.

(** ** The users table *)

Record User := mkUser {
  id : Z;
  name : Scalar;
  email : Scalar;
  password : string;
  role : Scalar
}.

#[global] Instance User_eq_dec : EqDecision User.
Proof. solve_decision. Defined.

(** Modelled from the spec: the schema of [users] is not in the sources.
    The table holds the records in insertion order; [next_id] is the next
    store-assigned id ("id (unique, store-assigned)"). *)
Record Db := mkDb { users : list User; next_id : Z }.

(** A computation of a handler body: it reads and writes the table and may
    throw.  A throw keeps the table as it is at that point. *)
Definition M (A : Type) : Type := Db -> Result A * Db.

Definition ret {A} (a : A) : M A := fun db => (Ok a, db).
Definition throw {A} (e : Err) : M A := fun db => (Throw e, db).
Definition bind {A B} (m : M A) (k : A -> M B) : M B :=
  fun db => match m db with
            | (Ok a, db') => k a db'
            | (Throw e, db') => (Throw e, db')
            end.
(** [try { body } catch (err) { handler }] *)
Definition try_catch {A} (body : M A) (handler : Err -> M A) : M A :=
  fun db => match body db with
            | (Ok a, db') => (Ok a, db')
            | (Throw e, db') => handler e db'
            end.

Notation "x <- m ;; k" := (bind m (fun x => k))
  (at level 100, m at next level, right associativity).

(** ** Responses and requests *)

Inductive Body :=
| BObj (o : Obj)
| BArr (items : list Obj).

(** The three ways the handlers answer. *)
Inductive Response :=
| SendStatus (status : Z)               (* res.sendStatus(status) *)
| StatusJson (status : Z) (b : Body)    (* res.status(status).json(b) *)
| StatusSend (status : Z).              (* res.status(status).send() *)

Definition status_of (r : Response) : Z :=
  match r with
  | SendStatus s | StatusJson s _ | StatusSend s => s
  end.

(** The JSON payload the handler hands to [res.json], if any.  This is what
    the handler supplies, not the body that goes out: see [body_sent]. *)
Definition payload_of (r : Response) : option Body :=
  match r with
  | StatusJson _ b => Some b
  | SendStatus _ | StatusSend _ => None
  end.




(** Modelled from the spec: the decoded claims of a token, "{id, email, role}
    plus an expiration timestamp". *)
Record Claims := mkClaims {
  c_id : Scalar;
  c_email : Scalar;
  c_role : Scalar;
  c_exp : Z
}.

(** The payload object handed to [jwt.sign]. *)
Record Payload := mkPayload { p_id : Scalar; p_email : Scalar; p_role : Scalar }.

(** The options object handed to [jwt.sign]. *)
Record SignOptions := mkSignOptions { expiresIn : string }.

(** [req]: header names are lower-cased by the framework; [params_id] is the
    [:id] segment of the path, read as the id it denotes. *)
Record Request := mkRequest {
  headers : gmap string string;
  body : Obj;
  params_id : Z;
  user : option Claims
}.

Definition set_user (req : Request) (c : Claims) : Request :=
  {| headers := headers req; body := body req;
     params_id := params_id req; user := Some c |}.

(** What a request meets outside the process: the clock (seconds) and whether
    the store can be reached.  [connect_fault] is a failure of
    [pool.getConnection()], [query_fault] a failure of the query call. *)
Record Env := mkEnv {
  now : Z;
  connect_fault : option Err;
  query_fault : option Err
}.

(** ** The platform *)

(** What the process runs on: bcrypt and jsonwebtoken as the interface the
    handlers call (a rejected bcrypt promise is [None]), the environment
    variable [JWT_SECRET], and the default of the [role] column. *)
Class Platform := {
  bcrypt_hash : Scalar -> Z -> option string;
  bcrypt_compare : Scalar -> Scalar -> option bool;
  jwt_sign : Payload -> string -> SignOptions -> Z -> string;
  jwt_verify : string -> string -> Z -> Result Claims;
  env_JWT_SECRET : option string;
  default_role : Scalar
}.

(** The error of a rejected library promise: a plain [Error], no [code]. *)
Definition library_error : Err := mkErr None "Error".

Definition lift_promise {A} (r : option A) : M A :=
  match r with
  | Some a => ret a
  | None => throw library_error
  end.

(** What a guard does with a request. *)
Inductive GuardResult :=
| Next (req : Request)       (* next() *)
| Reply (res : Response).    (* the pipeline stops with this answer *)

Section Gate.
Context `{Platform}.

(** [process.env.JWT_SECRET || 'a_default_fallback_secret'] *)
Definition JWT_SECRET : string :=
  match env_JWT_SECRET with
  | Some s => if String.eqb s "" then "a_default_fallback_secret" else s
  | None => "a_default_fallback_secret"
  end.

(** ** The guards (the same text in both files) *)

(** [authHeader && authHeader.split(' ')[1]]: [None] is [undefined]. *)
Definition bearer_token (authHeader : option string) : option string :=
  match authHeader with
  | None => None
  | Some h => if String.eqb h "" then Some h else split Ascii.Space h !! 1%nat
  end.

Definition authenticateToken (env : Env) (req : Request) : GuardResult :=
  let authHeader := headers req !! "authorization" in
  let token := bearer_token authHeader in
  match token with
  | None => Reply (SendStatus 401)
  | Some token =>
      match jwt_verify token JWT_SECRET (now env) with
      | Throw err => Reply (SendStatus 403)
      | Ok user => Next (set_user req user)
      end
  end.

Definition authorizeAdmin (env : Env) (req : Request) : GuardResult :=
  if match user req with
     | Some u => is_str (c_role u) "admin"
     | None => false
     end
  then Next req
  else Reply (SendStatus 403).

(** ** Routes *)

Definition Guard : Type := Env -> Request -> GuardResult.
(** A handler answers, or its promise is rejected outside every [try]. *)
Definition Handler : Type := Env -> Request -> M Response.

Record Route := mkRoute { guards : list Guard; handler : Handler }.

(** The guards run in the order of registration; the first that answers
    ends the request. *)
Fixpoint run_guards (gs : list Guard) (env : Env) (req : Request) : GuardResult :=
  match gs with
  | [] => Next req
  | g :: rest =>
      match g env req with
      | Next req' => run_guards rest env req'
      | Reply res => Reply res
      end
  end.

Definition run_route (r : Route) (env : Env) (req : Request) : M Response :=
  match run_guards (guards r) env req with
  | Next req' => handler r env req'
  | Reply res => ret res
  end.

End Gate.

(** ** The store *)

(** The row objects the drivers hand back. *)
Definition row_full (u : User) : Obj :=
  {[ "id" := JNum (id u); "name" := name u; "email" := email u;
     "password" := JStr (password u); "role" := role u ]}.

Definition row_public (u : User) : Obj :=
  {[ "id" := JNum (id u); "name" := name u; "email" := email u; "role" := role u ]}.

(** [WHERE id = v] on the integer column. *)
Definition id_is (v : Scalar) (u : User) : Prop := v = JNum (id u).

#[global] Instance id_is_dec v u : Decision (id_is v u).
Proof. unfold id_is. apply _. Defined.

Section Table.
Context `{Platform}.

(** The statements of the handlers over the table.  [dup] is the error the
    engine raises when the constraint on [email] is violated. *)

(** Modelled from the spec: the schema is not in the sources; "email
    uniqueness enforced by the store; violation surfaces as a conflict".
    INSERT INTO users (name, email, password) VALUES (n, e, digest): the id
    of the new record. *)
Definition tbl_insert (dup : Err) (n e : Scalar) (digest : string) : M Z :=
  fun db =>
    if decide (e ∈ email <$> users db) then (Throw dup, db)
    else (Ok (next_id db),
          {| users := users db ++ [mkUser (next_id db) n e digest default_role];
             next_id := next_id db + 1 |}).

(** SELECT ... FROM users WHERE email = e *)
Definition tbl_by_email (e : Scalar) : M (list User) :=
  fun db => (Ok (filter (fun u => email u = e) (users db)), db).

(** SELECT ... FROM users *)
Definition tbl_all : M (list User) :=
  fun db => (Ok (users db), db).

Definition set_password (digest : string) (u : User) : User :=
  {| id := id u; name := name u; email := email u; password := digest; role := role u |}.

(** UPDATE users SET password = digest WHERE id = v: the number of records
    matched. *)
Definition tbl_set_password (digest : string) (v : Scalar) : M nat :=
  fun db =>
    (Ok (length (filter (id_is v) (users db))),
     {| users := (fun u => if decide (id_is v u) then set_password digest u else u) <$> users db;
        next_id := next_id db |}).

Definition set_profile (n e r : Scalar) (u : User) : User :=
  {| id := id u; name := n; email := e; password := password u; role := r |}.

(** Modelled from the spec: the schema is not in the sources; the update is
    refused when it would store an email twice.
    UPDATE users SET name = n, email = e, role = r WHERE id = v *)
Definition tbl_set_profile (dup : Err) (n e r v : Scalar) : M nat :=
  fun db =>
    let users' := (fun u => if decide (id_is v u) then set_profile n e r u else u) <$> users db in
    if decide (NoDup (email <$> users')) then
      (Ok (length (filter (id_is v) (users db))),
       {| users := users'; next_id := next_id db |})
    else (Throw dup, db).

(** DELETE FROM users WHERE id = v: the number of records removed. *)
Definition tbl_delete (v : Scalar) : M nat :=
  fun db =>
    (Ok (length (filter (id_is v) (users db))),
     {| users := filter (fun u => ¬ id_is v u) (users db); next_id := next_id db |}).

End Table.

Definition type_error : Err := mkErr None "TypeError".

Definition server_error : Body :=
  BObj {[ "error" := JStr "サーバーエラーが発生しました。" ]}.

(** The routes the two applications register. *)
Inductive Endpoint :=
| POST_users
| POST_login
| PUT_users_me_password
| GET_users
| PUT_users_id
| DELETE_users_id.

#[global] Instance Endpoint_eq_dec : EqDecision Endpoint.
Proof. solve_decision. Defined.

Definition error_body (msg : string) : Body := BObj {[ "error" := JStr msg ]}.
Definition message_body (msg : string) : Body := BObj {[ "message" := JStr msg ]}.

(** * The PostgreSQL variant: src/index.js *)
Module Pg.

(** The statements the handlers send, with their parameters. *)
Inductive Sql :=
| InsertUser (n e : Scalar) (digest : string)
    (* INSERT INTO users (name, email, password) VALUES ($1, $2, $3) RETURNING id *)
| SelectUserByEmail (e : Scalar)
    (* SELECT * FROM users WHERE email = $1 *)
| UpdatePassword (digest : string) (v : Scalar)
    (* UPDATE users SET password = $1 WHERE id = $2 *)
| SelectUsers
    (* SELECT id, name, email, role FROM users *)
| DeleteUser (v : Scalar).
    (* DELETE FROM users WHERE id = $1 *)

(** The result object of node-postgres. *)
Record QueryResult := mkQueryResult { rows : list Obj; rowCount : nat }.

(** unique_violation *)
Definition dup_error : Err := mkErr (Some "23505") "duplicate key value violates unique constraint".

Section Handlers.
Context `{Platform}.

(** [pool.query(sql, params)]: the pool takes a connection, runs the
    statement on it and gives the connection back. *)
Definition pool_query (env : Env) (sql : Sql) : M QueryResult :=
  match connect_fault env with
  | Some e => throw e
  | None =>
      match query_fault env with
      | Some e => throw e
      | None =>
          match sql with
          | InsertUser n e digest =>
              i <- tbl_insert dup_error n e digest ;;
              ret (mkQueryResult [ {[ "id" := JNum i ]} ] 1)
          | SelectUserByEmail e =>
              us <- tbl_by_email e ;;
              ret (mkQueryResult (row_full <$> us) (length us))
          | UpdatePassword digest v =>
              n <- tbl_set_password digest v ;;
              ret (mkQueryResult [] n)
          | SelectUsers =>
              us <- tbl_all ;;
              ret (mkQueryResult (row_public <$> us) (length us))
          | DeleteUser v =>
              n <- tbl_delete v ;;
              ret (mkQueryResult [] n)
          end
      end
  end.

(** [rows[0]], for a property read that follows: reading a property of
    [undefined] throws. *)
Definition first_row (rs : list Obj) : M Obj :=
  match rs !! 0%nat with
  | Some r => ret r
  | None => throw type_error
  end.

(** app.post('/users', ...) *)
Definition post_users (env : Env) (req : Request) : M Response :=
  let name := prop (body req) "name" in
  let email := prop (body req) "email" in
  let password := prop (body req) "password" in
  if negb (truthy name) || negb (truthy email) || negb (truthy password)
     || length_lt password 8
  then ret (StatusJson 400
              (error_body "名前、メールアドレス、8文字以上のパスワードは必須です。"))
  else
    let saltRounds := 10 in
    try_catch
      (hashedPassword <- lift_promise (bcrypt_hash password saltRounds) ;;
       result <- pool_query env (InsertUser name email hashedPassword) ;;
       row <- first_row (rows result) ;;
       ret (StatusJson 201
              (BObj {[ "id" := prop row "id"; "name" := name; "email" := email ]})))
      (fun err =>
         if code_is err "23505"
         then ret (StatusJson 409
                     (error_body "そのメールアドレスは既に使用されています。"))
         else ret (StatusJson 500 server_error)).

(** app.post('/login', ...) *)
Definition post_login (env : Env) (req : Request) : M Response :=
  let email := prop (body req) "email" in
  let password := prop (body req) "password" in
  if negb (truthy email) || negb (truthy password)
  then ret (StatusJson 400 (error_body "emailとpasswordは必須です。"))
  else
    try_catch
      (result <- pool_query env (SelectUserByEmail email) ;;
       if (length (rows result) =? 0)%nat
       then ret (StatusJson 401 (error_body "認証に失敗しました。"))
       else
         user <- first_row (rows result) ;;
         isMatch <- lift_promise (bcrypt_compare password (prop user "password")) ;;
         if isMatch : bool
         then
           let payload := mkPayload (prop user "id") (prop user "email") (prop user "role") in
           let token := jwt_sign payload JWT_SECRET (mkSignOptions "1h") (now env) in
           ret (StatusJson 200
                  (BObj {[ "message" := JStr "ログイン成功"; "token" := JStr token ]}))
         else ret (StatusJson 401 (error_body "認証に失敗しました。")))
      (fun err => ret (StatusJson 500 server_error)).

(** app.put('/users/me/password', authenticateToken, ...) *)
Definition put_users_me_password (env : Env) (req : Request) : M Response :=
  match user req with
  | None => throw type_error
  | Some u =>
      let userId := c_id u in
      let newPassword := prop (body req) "newPassword" in
      if negb (truthy newPassword) || length_lt newPassword 8
      then ret (StatusJson 400
                  (error_body "パスワードは8文字以上で入力してください。"))
      else
        let saltRounds := 10 in
        try_catch
          (hashedPassword <- lift_promise (bcrypt_hash newPassword saltRounds) ;;
           _ <- pool_query env (UpdatePassword hashedPassword userId) ;;
           ret (StatusJson 200 (message_body "パスワードが正常に更新されました。")))
          (fun err => ret (StatusJson 500 server_error))
  end.

(** app.get('/users', authenticateToken, authorizeAdmin, ...) *)
Definition get_users (env : Env) (req : Request) : M Response :=
  try_catch
    (result <- pool_query env SelectUsers ;;
     ret (StatusJson 200 (BArr (rows result))))
    (fun err => ret (StatusJson 500 server_error)).

(** app.delete('/users/:id', authenticateToken, authorizeAdmin, ...) *)
Definition delete_users_id (env : Env) (req : Request) : M Response :=
  let id := JNum (params_id req) in
  try_catch
    (result <- pool_query env (DeleteUser id) ;;
     if (rowCount result =? 0)%nat
     then ret (StatusJson 404 (error_body "指定されたユーザーは見つかりません。"))
     else ret (StatusSend 204))
    (fun err => ret (StatusJson 500 server_error)).

(** The routes, in the order of registration.  No route answers
    [PUT /users/:id] in this variant. *)
Definition app (ep : Endpoint) : option Route :=
  match ep with
  | POST_users => Some (mkRoute [] post_users)
  | POST_login => Some (mkRoute [] post_login)
  | PUT_users_me_password => Some (mkRoute [authenticateToken] put_users_me_password)
  | GET_users => Some (mkRoute [authenticateToken; authorizeAdmin] get_users)
  | PUT_users_id => None
  | DELETE_users_id => Some (mkRoute [authenticateToken; authorizeAdmin] delete_users_id)
  end.

End Handlers.
End Pg.

(** * The MariaDB variant: src/unnamed/part_000 *)
Module My.

(** The statements the handlers send, with their parameters. *)
Inductive Sql :=
| InsertUser (n e : Scalar) (digest : string)
    (* INSERT INTO users (name, email, password) VALUES (?, ?, ?) *)
| SelectUserByEmail (e : Scalar)
    (* SELECT * FROM users WHERE email = ? *)
| UpdatePassword (digest : string) (v : Scalar)
    (* UPDATE users SET password = ? WHERE id = ? *)
| SelectUsers
    (* SELECT id, name, email, role FROM users *)
| UpdateUser (n e r v : Scalar)
    (* UPDATE users SET name = ?, email = ?, role = ? WHERE id = ? *)
| DeleteUser (v : Scalar).
    (* DELETE FROM users WHERE id = ? *)

(** What [conn.query] resolves to: the array of rows of a SELECT, or the
    summary object of a statement that writes. *)
Inductive QueryResult :=
| Rows (rs : list Obj)
| OkPacket (affectedRows : nat) (insertId : Z).

(** [result.length]; [None] is [undefined]. *)
Definition length_of (r : QueryResult) : option nat :=
  match r with
  | Rows rs => Some (length rs)
  | OkPacket _ _ => None
  end.

(** [result[0]] *)
Definition first_of (r : QueryResult) : option Obj :=
  match r with
  | Rows rs => rs !! 0%nat
  | OkPacket _ _ => None
  end.

(** [result.affectedRows] *)
Definition affectedRows_of (r : QueryResult) : option nat :=
  match r with
  | Rows _ => None
  | OkPacket n _ => Some n
  end.

(** [result.insertId] *)
Definition insertId_of (r : QueryResult) : Scalar :=
  match r with
  | Rows _ => JUndefined
  | OkPacket _ i => JNum i
  end.

(** The value as [res.json] serialises it. *)
Definition json_of (r : QueryResult) : Body :=
  match r with
  | Rows rs => BArr rs
  | OkPacket n i =>
      BObj {[ "affectedRows" := JNum (Z.of_nat n); "insertId" := JNum i;
              "warningStatus" := JNum 0 ]}
  end.

(** [x === 0] on a property that may be [undefined] *)
Definition is_zero (x : option nat) : bool :=
  match x with
  | Some n => (n =? 0)%nat
  | None => false
  end.

Definition dup_error : Err := mkErr (Some "ER_DUP_ENTRY") "Duplicate entry".

Section Handlers.
Context `{Platform}.

(** [pool.getConnection()] *)
Definition pool_getConnection (env : Env) : M unit :=
  match connect_fault env with
  | Some e => throw e
  | None => ret tt
  end.

(** [conn.query(sql, params)] *)
Definition conn_query (env : Env) (sql : Sql) : M QueryResult :=
  match query_fault env with
  | Some e => throw e
  | None =>
      match sql with
      | InsertUser n e digest =>
          i <- tbl_insert dup_error n e digest ;;
          ret (OkPacket 1 i)
      | SelectUserByEmail e =>
          us <- tbl_by_email e ;;
          ret (Rows (row_full <$> us))
      | UpdatePassword digest v =>
          n <- tbl_set_password digest v ;;
          ret (OkPacket n 0)
      | SelectUsers =>
          us <- tbl_all ;;
          ret (Rows (row_public <$> us))
      | UpdateUser n e r v =>
          k <- tbl_set_profile dup_error n e r v ;;
          ret (OkPacket k 0)
      | DeleteUser v =>
          n <- tbl_delete v ;;
          ret (OkPacket n 0)
      end
  end.

(** Reading a property of [undefined] throws. *)
Definition defined (o : option Obj) : M Obj :=
  match o with
  | Some r => ret r
  | None => throw type_error
  end.

(** app.post('/users', ...) *)
Definition post_users (env : Env) (req : Request) : M Response :=
  let name := prop (body req) "name" in
  let email := prop (body req) "email" in
  let password := prop (body req) "password" in
  if negb (truthy name) || negb (truthy email) || negb (truthy password)
     || length_lt password 8
  then ret (StatusJson 400
              (error_body "名前、メールアドレス、8文字以上のパスワードは必須です。"))
  else
    let saltRounds := 10 in
    try_catch
      (conn <- pool_getConnection env ;;
       hashedPassword <- lift_promise (bcrypt_hash password saltRounds) ;;
       result <- conn_query env (InsertUser name email hashedPassword) ;;
       ret (StatusJson 201
              (BObj {[ "id" := insertId_of result; "name" := name; "email" := email ]})))
      (fun err =>
         if code_is err "ER_DUP_ENTRY"
         then ret (StatusJson 409
                     (error_body "そのメールアドレスは既に使用されています。"))
         else ret (StatusJson 500 server_error)).

(** app.post('/login', ...) *)
Definition post_login (env : Env) (req : Request) : M Response :=
  let email := prop (body req) "email" in
  let password := prop (body req) "password" in
  if negb (truthy email) || negb (truthy password)
  then ret (StatusJson 400 (error_body "emailとpasswordは必須です。"))
  else
    try_catch
      (conn <- pool_getConnection env ;;
       users <- conn_query env (SelectUserByEmail email) ;;
       if is_zero (length_of users)
       then ret (StatusJson 401 (error_body "認証に失敗しました。"))
       else
         user <- defined (first_of users) ;;
         isMatch <- lift_promise (bcrypt_compare password (prop user "password")) ;;
         if isMatch : bool
         then
           let payload := mkPayload (prop user "id") (prop user "email") (prop user "role") in
           let token := jwt_sign payload JWT_SECRET (mkSignOptions "1h") (now env) in
           ret (StatusJson 200
                  (BObj {[ "message" := JStr "ログイン成功"; "token" := JStr token ]}))
         else ret (StatusJson 401 (error_body "認証に失敗しました。")))
      (fun err => ret (StatusJson 500 server_error)).

(** app.put('/users/me/password', authenticateToken, ...) *)
Definition put_users_me_password (env : Env) (req : Request) : M Response :=
  match user req with
  | None => throw type_error
  | Some u =>
      let userId := c_id u in
      let newPassword := prop (body req) "newPassword" in
      if negb (truthy newPassword) || length_lt newPassword 8
      then ret (StatusJson 400
                  (error_body "パスワードは8文字以上で入力してください。"))
      else
        let saltRounds := 10 in
        try_catch
          (conn <- pool_getConnection env ;;
           hashedPassword <- lift_promise (bcrypt_hash newPassword saltRounds) ;;
           _ <- conn_query env (UpdatePassword hashedPassword userId) ;;
           ret (StatusJson 200 (message_body "パスワードが正常に更新されました。")))
          (fun err => ret (StatusJson 500 server_error))
  end.

(** app.get('/users', authenticateToken, authorizeAdmin, ...) *)
Definition get_users (env : Env) (req : Request) : M Response :=
  try_catch
    (conn <- pool_getConnection env ;;
     rows <- conn_query env SelectUsers ;;
     ret (StatusJson 200 (json_of rows)))
    (fun err => ret (StatusJson 500 server_error)).

(** app.put('/users/:id', authenticateToken, authorizeAdmin, ...) *)
Definition put_users_id (env : Env) (req : Request) : M Response :=
  let id := JNum (params_id req) in
  let name := prop (body req) "name" in
  let email := prop (body req) "email" in
  let role := prop (body req) "role" in
  if negb (truthy name) || negb (truthy email) || negb (truthy role)
  then ret (StatusJson 400 (error_body "name, email, roleは必須です。"))
  else
    try_catch
      (conn <- pool_getConnection env ;;
       result <- conn_query env (UpdateUser name email role id) ;;
       if is_zero (affectedRows_of result)
       then ret (StatusJson 404 (error_body "指定されたユーザーは見つかりません。"))
       else ret (StatusJson 200
                   (BObj {[ "id" := id; "name" := name; "email" := email; "role" := role ]})))
      (fun err => ret (StatusJson 500 server_error)).

(** app.delete('/users/:id', authenticateToken, authorizeAdmin, ...) *)
Definition delete_users_id (env : Env) (req : Request) : M Response :=
  let id := JNum (params_id req) in
  try_catch
    (conn <- pool_getConnection env ;;
     result <- conn_query env (DeleteUser id) ;;
     if is_zero (affectedRows_of result)
     then ret (StatusJson 404 (error_body "指定されたユーザーは見つかりません。"))
     else ret (StatusSend 204))
    (fun err => ret (StatusJson 500 server_error)).

(** The routes, in the order of registration. *)
Definition app (ep : Endpoint) : option Route :=
  match ep with
  | POST_users => Some (mkRoute [] post_users)
  | POST_login => Some (mkRoute [] post_login)
  | PUT_users_me_password => Some (mkRoute [authenticateToken] put_users_me_password)
  | GET_users => Some (mkRoute [authenticateToken; authorizeAdmin] get_users)
  | PUT_users_id => Some (mkRoute [authenticateToken; authorizeAdmin] put_users_id)
  | DELETE_users_id => Some (mkRoute [authenticateToken; authorizeAdmin] delete_users_id)
  end.

End Handlers.
End My.

(** * The two variants side by side *)

(** The variants, by the driver they are written for. *)
Inductive Driver := PostgreSQL | MariaDB.

Definition app `{Platform} (v : Driver) : Endpoint -> option Route :=
  match v with
  | PostgreSQL => Pg.app
  | MariaDB => My.app
  end.

(** The code of a unique-constraint violation, as each driver reports it. *)
Definition dup_code (v : Driver) : string :=
  match v with
  | PostgreSQL => "23505"
  | MariaDB => "ER_DUP_ENTRY"
  end.

(** The answer of a run: status and supplied payload. *)
Definition answered (out : Result Response * Db) (st : Z) (pl : option Body) : Prop :=
  exists res, out.1 = Ok res /\ status_of res = st /\ payload_of res = pl.

(** The admin-only routes: list, update and delete. *)
Definition admin_only (ep : Endpoint) : Prop :=
  ep = GET_users \/ ep = PUT_users_id \/ ep = DELETE_users_id.

(** The check of the registration handler, on the fields of the body. *)
Definition registration_refused (b : Obj) : bool :=
  negb (truthy (prop b "name")) || negb (truthy (prop b "email"))
  || negb (truthy (prop b "password")) || length_lt (prop b "password") 8.

(** A field of the body is missing, or the password is a string whose
    [length] (in UTF-16 code units, as [password.length] counts) is less
    than 8. *)
Definition missing_or_short (b : Obj) : Prop :=
  b !! "name" = None \/ b !! "email" = None \/ b !! "password" = None \/
  exists s, b !! "password" = Some (JStr s) /\ (js_length s < 8)%nat.

Definition registration_error : Body :=
  error_body "名前、メールアドレス、8文字以上のパスワードは必須です。".

Definition conflict_error : Body :=
  error_body "そのメールアドレスは既に使用されています。".

(** The registration handler, past its check, meets an error [e] at the
    store, which is left as [db']: the INSERT throws, or (MariaDB) no
    connection is obtained. *)
Definition insert_throws `{Platform} (v : Driver) (env : Env) (b : Obj)
    (digest : string) (db : Db) (e : Err) (db' : Db) : Prop :=
  match v with
  | PostgreSQL =>
      Pg.pool_query env (Pg.InsertUser (prop b "name") (prop b "email") digest) db
      = (Throw e, db')
  | MariaDB =>
      My.pool_getConnection env db = (Throw e, db') \/
      (My.pool_getConnection env db = (Ok tt, db) /\
       My.conn_query env (My.InsertUser (prop b "name") (prop b "email") digest) db
       = (Throw e, db'))
  end.

(** The store can be reached and executes the statement it is sent. *)
Definition store_up (env : Env) : Prop :=
  connect_fault env = None /\ query_fault env = None.

(** The records that hold the email [e]. *)
Definition with_email (e : Scalar) (db : Db) : list User :=
  filter (fun u => email u = e) (users db).

Definition login_error : Body := error_body "認証に失敗しました。".

(** The login handler lets the request through its check. *)
Definition login_well_formed (b : Obj) : Prop :=
  truthy (prop b "email") = true /\ truthy (prop b "password") = true.

(** The token the login handler issues for the record [u] at time [t]. *)
Definition issued_token `{Platform} (u : User) (t : Z) : string :=
  jwt_sign (mkPayload (JNum (id u)) (email u) (role u)) JWT_SECRET (mkSignOptions "1h") t.

Definition login_success (token : string) : Body :=
  BObj {[ "message" := JStr "ログイン成功"; "token" := JStr token ]}.

(** Modelled from the spec: the contract of the token service, "sets 1-hour
    expiry" and "[Forbidden] if signature invalid or expired".  A token
    signed with ['1h'] at [iat] verifies under the same key to the signed
    claims while the clock is before [iat + 3600], and fails from then on; a
    token has no blank in it. *)
Class TokenService `{Platform} : Prop := {
  verify_fresh : forall p key iat t,
    t < iat + 3600 ->
    jwt_verify (jwt_sign p key (mkSignOptions "1h") iat) key t
    = Ok (mkClaims (p_id p) (p_email p) (p_role p) (iat + 3600));
  verify_expired : forall p key iat t,
    iat + 3600 <= t ->
    exists e, jwt_verify (jwt_sign p key (mkSignOptions "1h") iat) key t = Throw e;
  sign_compact : forall p key o iat,
    free_of Ascii.Space (jwt_sign p key o iat) = true
}.

(** A request that presents [token] under the [Bearer] scheme. *)
Definition presents (req : Request) (token : string) : Prop :=
  headers req !! "authorization" = Some ("Bearer " +:+ token).

Definition not_found_error : Body := error_body "指定されたユーザーは見つかりません。".

(** The store after DELETE FROM users WHERE id = i. *)
Definition without_id (i : Z) (db : Db) : Db :=
  {| users := filter (fun u => id u <> i) (users db); next_id := next_id db |}.

(** A request that went through both guards of an admin-only route: its
    token verifies to claims with role ['admin']. *)
Definition admin_authorized `{Platform} (env : Env) (req : Request) : Prop :=
  exists t c,
    bearer_token (headers req !! "authorization") = Some t /\
    jwt_verify t JWT_SECRET (now env) = Ok c /\
    c_role c = JStr "admin".

(** Partial correctness of a handler computation: every value it returns
    satisfies [Q]. *)
Definition returns {A} (m : M A) (Q : A -> Prop) : Prop :=
  forall db a db', m db = (Ok a, db') -> Q a.

(** No property named [password] in the payload of an answer. *)
Definition hides_password (res : Response) : Prop :=
  match payload_of res with
  | None => True
  | Some (BObj o) => o !! "password" = None
  | Some (BArr items) => Forall (fun o : Obj => o !! "password" = None) items
  end.

(** The properties of an item of the user list. *)
Definition public_fields : gset string := {[ "id"; "name"; "email"; "role" ]}.

(** A failure of the infrastructure: its code is not the unique-violation
    code of either driver, which only the constraint of the table raises. *)
Definition ambient (e : Err) : Prop :=
  code e <> Some "23505" /\ code e <> Some "ER_DUP_ENTRY".

Definition ambient_faults (env : Env) : Prop :=
  (forall e, connect_fault env = Some e -> ambient e) /\
  (forall e, query_fault env = Some e -> ambient e).

(** The status and the shape of the payload of an answer: an object by its
    property names, an array by the property names of its items. *)
Inductive Shape :=
| NoPayload
| ObjShape (keys : gset string)
| ArrShape (items : list (gset string)).

Definition shape_of (res : Response) : Z * Shape :=
  (status_of res,
   match payload_of res with
   | None => NoPayload
   | Some (BObj o) => ObjShape (dom o)
   | Some (BArr items) => ArrShape (dom <$> items)
   end).

(** The constraints of the table: ids and emails are unique, and every id
    was assigned before [next_id]. *)
Definition db_ok (db : Db) : Prop :=
  NoDup (id <$> users db) /\ NoDup (email <$> users db) /\
  Forall (fun u => id u < next_id db) (users db).

(** A computation keeps an invariant of the store, however it ends. *)
Definition preserves {A} (m : M A) (I : Db -> Prop) : Prop :=
  forall db out db', I db -> m db = (out, db') -> I db'.

(** A handler computation ends with an answer, whatever the store. *)
Definition answers (m : M Response) : Prop :=
  forall db, exists res db', m db = (Ok res, db').

(** ** The checks of the handlers *)

(** [!email || !password] of the login handler. *)
Definition login_refused (b : Obj) : bool :=
  negb (truthy (prop b "email")) || negb (truthy (prop b "password")).

(** [!newPassword || newPassword.length < 8] of the change-password handler. *)
Definition password_refused (b : Obj) : bool :=
  negb (truthy (prop b "newPassword")) || length_lt (prop b "newPassword") 8.

(** [!name || !email || !role] of the update handler. *)
Definition profile_refused (b : Obj) : bool :=
  negb (truthy (prop b "name")) || negb (truthy (prop b "email"))
  || negb (truthy (prop b "role")).

Definition login_fields_error : Body := error_body "emailとpasswordは必須です。".
Definition password_error : Body :=
  error_body "パスワードは8文字以上で入力してください。".
Definition profile_error : Body := error_body "name, email, roleは必須です。".
Definition password_changed : Body :=
  message_body "パスワードが正常に更新されました。".

(** The check a handler makes on the body before anything else: the payload
    of its 400, or [None] when the request goes on (the list and delete
    handlers check nothing). *)
Definition check (ep : Endpoint) (b : Obj) : option Body :=
  match ep with
  | POST_users => if registration_refused b then Some registration_error else None
  | POST_login => if login_refused b then Some login_fields_error else None
  | PUT_users_me_password => if password_refused b then Some password_error else None
  | PUT_users_id => if profile_refused b then Some profile_error else None
  | GET_users | DELETE_users_id => None
  end.

(** The store cannot be reached, or fails on the statement. *)
Definition store_down (env : Env) : Prop :=
  connect_fault env <> None \/ query_fault env <> None.

(** The table after UPDATE users SET password = digest WHERE id = v. *)
Definition with_password (digest : string) (v : Scalar) (db : Db) : Db :=
  {| users := (fun u => if decide (id_is v u) then set_password digest u else u)
              <$> users db;
     next_id := next_id db |}.

(** The table after UPDATE users SET name, email, role WHERE id = v. *)
Definition with_profile (n e r v : Scalar) (db : Db) : Db :=
  {| users := (fun u => if decide (id_is v u) then set_profile n e r u else u)
              <$> users db;
     next_id := next_id db |}.

(** The table after the INSERT of a registration. *)
Definition with_new_user `{Platform} (n e : Scalar) (digest : string) (db : Db) : Db :=
  {| users := users db ++ [mkUser (next_id db) n e digest default_role];
     next_id := next_id db + 1 |}.

Definition created (i : Z) (n e : Scalar) : Body :=
  BObj {[ "id" := JNum i; "name" := n; "email" := e ]}.

Definition updated (i : Z) (n e r : Scalar) : Body :=
  BObj {[ "id" := JNum i; "name" := n; "email" := e; "role" := r ]}.

(** The records with id [i]. *)
Definition with_id (i : Z) (db : Db) : list User :=
  filter (fun u => id u = i) (users db).

(** A request as the application receives it: the route, the conditions
    outside the process, and the request object. *)
Definition Call : Type := Endpoint * Env * Request.

(** The store after a sequence of requests, served one after the other; a
    request for a route that the variant does not register leaves it as it
    is. *)
Fixpoint serve `{Platform} (v : Driver) (calls : list Call) (db : Db) : Db :=
  match calls with
  | [] => db
  | (ep, env, req) :: rest =>
      serve v rest
        match app v ep with
        | Some r => (run_route r env req db).2
        | None => db
        end
  end.



(** A record without its digest. *)
Definition scrub_user (u : User) : User :=
  {| id := id u; name := name u; email := email u; password := ""; role := role u |}.

(** The store without the digests. *)
Definition scrub (db : Db) : Db :=
  {| users := scrub_user <$> users db; next_id := next_id db |}.

(** Two stores that differ at most in the digests they hold. *)
Definition same_but_digests (db1 db2 : Db) : Prop := scrub db1 = scrub db2.

(** What bcrypt says of the password of the login request against the digest
    of the record the login handler looks at (the first with the email of
    the request) is the same in the two stores. *)
Definition same_comparison `{Platform} (req : Request) (db1 db2 : Db) : Prop :=
  forall u1 u2,
    head (with_email (prop (body req) "email") db1) = Some u1 ->
    head (with_email (prop (body req) "email") db2) = Some u2 ->
    bcrypt_compare (prop (body req) "password") (JStr (password u1))
    = bcrypt_compare (prop (body req) "password") (JStr (password u2)).

(** The platform [P] with another digest function in the place of
    [bcrypt.hash]. *)
Definition with_hash (P : Platform) (h : Scalar -> Z -> option string) : Platform :=
  {| bcrypt_hash := h;
     bcrypt_compare := @bcrypt_compare P;
     jwt_sign := @jwt_sign P;
     jwt_verify := @jwt_verify P;
     env_JWT_SECRET := @env_JWT_SECRET P;
     default_role := @default_role P |}.

(** [h] resolves and rejects where the [bcrypt.hash] of [P] does; the digests
    may differ. *)
Definition same_hash_outcome (P : Platform) (h : Scalar -> Z -> option string) : Prop :=
  forall p n, is_Some (h p n) <-> is_Some (@bcrypt_hash P p n).

(** * A reference platform

    A small executable instance of [Platform], to run the model on concrete
    requests: a tagged digest for bcrypt, and tokens that spell out payload,
    key and expiry as a string of binary digits. *)
Module Reference.

Definition scalar_to_sum (v : Scalar) : unit + unit + bool + Z + string :=
  match v with
  | JUndefined => inl (inl (inl (inl tt)))
  | JNull => inl (inl (inl (inr tt)))
  | JBool b => inl (inl (inr b))
  | JNum z => inl (inr z)
  | JStr s => inr s
  end.

Definition sum_to_scalar (x : unit + unit + bool + Z + string) : Scalar :=
  match x with
  | inl (inl (inl (inl _))) => JUndefined
  | inl (inl (inl (inr _))) => JNull
  | inl (inl (inr b)) => JBool b
  | inl (inr z) => JNum z
  | inr s => JStr s
  end.

#[local] Instance Scalar_countable : Countable Scalar.
Proof.
  refine (inj_countable' scalar_to_sum sum_to_scalar _).
  intros []; reflexivity.
Defined.

Definition digit0 : Ascii.ascii := Ascii.ascii_of_nat 48.
Definition digit1 : Ascii.ascii := Ascii.ascii_of_nat 49.

Fixpoint digits (p : positive) : string :=
  match p with
  | xH => EmptyString
  | xO q => String digit0 (digits q)
  | xI q => String digit1 (digits q)
  end.

Fixpoint undigits (s : string) : option positive :=
  match s with
  | EmptyString => Some xH
  | String c rest =>
      match undigits rest with
      | Some q =>
          if Ascii.eqb c digit0 then Some (xO q)
          else if Ascii.eqb c digit1 then Some (xI q)
          else None
      | None => None
      end
  end.

Definition seal (p : Payload) (key : string) (exp : Z) : string :=
  digits (encode (p_id p, p_email p, p_role p, key, exp)).

Definition unseal (token : string) : option (Scalar * Scalar * Scalar * string * Z) :=
  match undigits token with
  | Some q => decode q
  | None => None
  end.

(** The "1h" of the handlers; any other span is read as no time at all. *)
Definition span (o : SignOptions) : Z :=
  if String.eqb (expiresIn o) "1h" then 3600 else 0.

Definition sign (p : Payload) (key : string) (o : SignOptions) (iat : Z) : string :=
  seal p key (iat + span o).

Definition verify (token key : string) (t : Z) : Result Claims :=
  match unseal token with
  | Some (i, e, r, k, exp) =>
      if String.eqb k key then
        if t <? exp then Ok (mkClaims i e r exp)
        else Throw (mkErr None "TokenExpiredError")
      else Throw (mkErr None "JsonWebTokenError")
  | None => Throw (mkErr None "JsonWebTokenError")
  end.

Definition hash (v : Scalar) (rounds : Z) : option string :=
  match v with
  | JStr s => Some ("$2b$" +:+ s)
  | _ => None
  end.

(** As bcrypt, it rejects data that is not a string. *)
Definition compare (v digest : Scalar) : option bool :=
  match v, digest with
  | JStr s, JStr d => Some (String.eqb ("$2b$" +:+ s) d)
  | _, _ => None
  end.

Definition platform : Platform :=
  {| bcrypt_hash := hash;
     bcrypt_compare := compare;
     jwt_sign := sign;
     jwt_verify := verify;
     env_JWT_SECRET := None;
     default_role := JStr "user" |}.

End Reference.

(** * The length of a string *)

(** [js_length] counts as [String.prototype.length] does: one for a
    character of the basic plane whatever the number of its bytes, two for a
    character outside it. *)
Example js_length_ascii : js_length "password" = 8%nat.
Proof. reflexivity. Qed.

Example js_length_kana : js_length "パスワード" = 5%nat /\ String.length "パスワード" = 15%nat.
Proof. split; reflexivity. Qed.

Example js_length_latin : js_length "pässwörd" = 8%nat.
Proof. reflexivity. Qed.

Example js_length_astral : js_length "😀😀😀" = 6%nat.
Proof. reflexivity. Qed.

Lemma js_length_le s : (js_length s <= 2 * String.length s)%nat.
Proof.
  induction s as [|c s IH]; simpl; [lia|].
  assert (utf16_units c <= 2)%nat; [|lia].
  unfold utf16_units. repeat case_match; lia.
Qed.

(** * Properties of the gate *)

Lemma is_str_true v lit : is_str v lit = true <-> v = JStr lit.
Proof.
  destruct v; simpl; try (split; [discriminate | intros; discriminate]).
  rewrite String.eqb_eq. split; [intros -> | intros [= ->]]; reflexivity.
Qed.

Lemma is_str_false v lit : is_str v lit = false <-> v <> JStr lit.
Proof.
  rewrite <- is_str_true. destruct (is_str v lit); split; congruence.
Qed.

Lemma split_free sep s : free_of sep s = true -> split sep s = [s].
Proof.
  induction s as [|c s IH]; simpl; [reflexivity|].
  destruct (Ascii.eqb c sep); simpl; [discriminate|].
  intros Hs. rewrite (IH Hs). reflexivity.
Qed.

Lemma split_cons sep s : exists p ps, split sep s = p :: ps.
Proof.
  destruct s as [|c s]; simpl; [by eexists _, _|].
  destruct (Ascii.eqb c sep); [by eexists _, _|].
  destruct (split sep s); by eexists _, _.
Qed.

Lemma split_second_none sep s :
  split sep s !! 1%nat = None -> free_of sep s = true.
Proof.
  induction s as [|c s IH]; simpl; [done|].
  destruct (split_cons sep s) as (p & ps & E). rewrite E in *.
  destruct (Ascii.eqb c sep); simpl; [done|]. exact IH.
Qed.

Lemma split_prefix sep w s :
  free_of sep w = true -> split sep (w +:+ String sep s) = w :: split sep s.
Proof.
  induction w as [|c w IH]; simpl.
  - intros _. by rewrite Ascii.eqb_refl.
  - destruct (Ascii.eqb c sep); simpl; [done|]. intros Hw. by rewrite (IH Hw).
Qed.

Lemma append_empty (t : string) : t +:+ "" = t.
Proof.
  induction t as [|c t IH]; [done|].
  change (String c t +:+ "") with (String c (t +:+ "")). by rewrite IH.
Qed.

Lemma split_head sep t rest :
  free_of sep t = true ->
  rest = "" \/ (exists rest', rest = String sep rest') ->
  exists pieces, split sep (t +:+ rest) = t :: pieces.
Proof.
  intros Ht [->|[rest' ->]].
  - exists []. rewrite append_empty. by apply split_free.
  - eexists. by apply split_prefix.
Qed.



(** A header without a separator has no second piece. *)
Lemma bearer_token_none h :
  bearer_token h = None <->
  h = None \/ exists s, h = Some s /\ s <> "" /\ free_of Ascii.Space s = true.
Proof.
  unfold bearer_token. destruct h as [s|]; [|split; [by left | done]].
  destruct (String.eqb_spec s "") as [->|Hne].
  - split; [discriminate | intros [|(s & [= <-] & Hs & _)]; done].
  - split.
    + intros Hnone. right. exists s. repeat split; [done|].
      by apply split_second_none.
    + intros [|(s' & [= <-] & _ & Hs)]; [done|]. by rewrite split_free.
Qed.

(** Under the [Bearer <token>] scheme the second piece is the token. *)
Lemma bearer_token_scheme t :
  free_of Ascii.Space t = true -> bearer_token (Some ("Bearer " +:+ t)) = Some t.
Proof.
  intros Ht. unfold bearer_token. simpl. by rewrite split_free.
Qed.

(** The extraction on headers outside the scheme: the second piece is taken
    whatever the first is, and an empty piece or an empty header is a token
    (the empty one), which goes to verification. *)
Example bearer_token_other_scheme : bearer_token (Some "Basic abc") = Some "abc".
Proof. reflexivity. Qed.

Example bearer_token_scheme_only : bearer_token (Some "Bearer") = None.
Proof. reflexivity. Qed.

Example bearer_token_two_blanks : bearer_token (Some "Bearer  abc") = Some "".
Proof. reflexivity. Qed.

Example bearer_token_empty_header : bearer_token (Some "") = Some "".
Proof. reflexivity. Qed.

(** The three outcomes of [authenticateToken], by the extracted token. *)
Lemma authenticateToken_cases `{Platform} (env : Env) (req : Request) :
  match bearer_token (headers req !! "authorization") with
  | None => authenticateToken env req = Reply (SendStatus 401)
  | Some t =>
      match jwt_verify t JWT_SECRET (now env) with
      | Throw _ => authenticateToken env req = Reply (SendStatus 403)
      | Ok c => authenticateToken env req = Next (set_user req c)
      end
  end.
Proof.
  unfold authenticateToken.
  destruct (bearer_token _) as [t|]; [|reflexivity].
  destruct (jwt_verify _ _ _); reflexivity.
Qed.

(** Every guarded route of both variants starts with [authenticateToken]. *)
Lemma guarded_routes `{Platform} v ep r :
  app v ep = Some r -> guards r <> [] ->
  guards r = authenticateToken :: tail (guards r).
Proof.
  destruct v, ep; simpl; intros [= <-]; simpl; done.
Qed.

Lemma run_route_unfold `{Platform} g gs h env req :
  run_route (mkRoute (g :: gs) h) env req =
  match g env req with
  | Next req' => run_route (mkRoute gs h) env req'
  | Reply res => ret res
  end.
Proof. unfold run_route. simpl. by destruct (g env req). Qed.

(** A guarded route is [authenticateToken] followed by the rest of its
    pipeline. *)
Lemma guarded_run `{Platform} v ep r env req :
  app v ep = Some r -> guards r <> [] ->
  run_route r env req =
  match authenticateToken env req with
  | Next req' => run_route (mkRoute (tail (guards r)) (handler r)) env req'
  | Reply res => ret res
  end.
Proof.
  intros Happ Hg. pose proof (guarded_routes v ep r Happ Hg) as Hhead.
  destruct r as [gs h]. simpl in *. rewrite Hhead at 1. apply run_route_unfold.
Qed.








Lemma admin_routes `{Platform} v ep r :
  app v ep = Some r -> admin_only ep ->
  guards r = [authenticateToken; authorizeAdmin].
Proof.
  intros Happ [->|[->| ->]]; destruct v; simpl in Happ;
    try discriminate; by injection Happ as <-.
Qed.

Lemma authorizeAdmin_cases `{Platform} env req :
  authorizeAdmin env req =
  match user req with
  | Some u => if decide (c_role u = JStr "admin") then Next req else Reply (SendStatus 403)
  | None => Reply (SendStatus 403)
  end.
Proof.
  unfold authorizeAdmin. destruct (user req) as [u|]; [|done].
  case_decide as Hr.
  - by rewrite (proj2 (is_str_true _ _) Hr).
  - by rewrite (proj2 (is_str_false _ _) Hr).
Qed.

(** Behind a token that verifies, an admin-only route comes down to the
    decision of [authorizeAdmin]. *)
Lemma admin_pipeline `{Platform} v ep r env req db t c h :
  app v ep = Some r -> admin_only ep ->
  bearer_token (headers req !! "authorization") = Some t ->
  jwt_verify t JWT_SECRET (now env) = Ok c ->
  run_route (mkRoute (guards r) h) env req db =
  if decide (c_role c = JStr "admin") then h env (set_user req c) db
  else (Ok (SendStatus 403), db).
Proof.
  intros Happ Hadm Ht Hv.
  pose proof (admin_routes v ep r Happ Hadm) as Hgs.
  pose proof (authenticateToken_cases env req) as Hauth. rewrite Ht, Hv in Hauth.
  unfold run_route. rewrite Hgs. simpl. rewrite Hauth.
  rewrite authorizeAdmin_cases. simpl. by case_decide.
Qed.

Lemma admin_granted `{Platform} v ep r env req db t c :
  app v ep = Some r -> admin_only ep ->
  bearer_token (headers req !! "authorization") = Some t ->
  jwt_verify t JWT_SECRET (now env) = Ok c ->
  c_role c = JStr "admin" ->
  run_route r env req db = handler r env (set_user req c) db.
Proof.
  intros Happ Hadm Ht Hv Hrole.
  pose proof (admin_pipeline v ep r env req db t c (handler r) Happ Hadm Ht Hv) as Hrun.
  rewrite decide_True in Hrun by done. by destruct r.
Qed.

(** C2: on an admin-only route, an authenticated request whose role claim is
    not ['admin'] is answered with a bare 403 whatever the handler is (the
    handler does not run); with role ['admin'] the handler runs on the request
    that carries the claims. *)
Theorem authorize_admin_guard `{Platform} (v : Driver) (ep : Endpoint) (r : Route)
    (env : Env) (req : Request) (db : Db) (t : string) (c : Claims) :
  app v ep = Some r -> admin_only ep ->
  bearer_token (headers req !! "authorization") = Some t ->
  jwt_verify t JWT_SECRET (now env) = Ok c ->
  (c_role c <> JStr "admin" ->
     answered (run_route r env req db) 403 None /\
     forall h, run_route (mkRoute (guards r) h) env req db = (Ok (SendStatus 403), db)) /\
  (c_role c = JStr "admin" ->
     run_route r env req db = handler r env (set_user req c) db).
Proof.
  intros Happ Hadm Ht Hv. split; intros Hrole.
  - assert (Hany : forall h, run_route (mkRoute (guards r) h) env req db
                             = (Ok (SendStatus 403), db)).
    { intros h. rewrite (admin_pipeline v ep r env req db t c h Happ Hadm Ht Hv).
      by rewrite decide_False. }
    split; [|exact Hany].
    specialize (Hany (handler r)). destruct r as [gs h]. simpl in Hany.
    rewrite Hany. by exists (SendStatus 403).
  - by apply (admin_granted v ep r env req db t c).
Qed.

Lemma authorize_admin_guard_witness :
  let P := Reference.platform in
  let r := mkRoute [authenticateToken; authorizeAdmin] My.delete_users_id in
  let p := mkPayload (JNum 7) (JStr "u@example.org") (JStr "user") in
  let t := jwt_sign p JWT_SECRET (mkSignOptions "1h") 0 in
  let c := mkClaims (JNum 7) (JStr "u@example.org") (JStr "user") 3600 in
  let env := mkEnv 60 None None in
  let req := mkRequest {[ "authorization" := "Bearer " +:+ t ]} ∅ 7 None in
  let db := mkDb [mkUser 7 (JStr "u") (JStr "u@example.org") "$2b$secret-pw" (JStr "user")] 8 in
  app MariaDB DELETE_users_id = Some r /\ admin_only DELETE_users_id /\
  bearer_token (headers req !! "authorization") = Some t /\
  jwt_verify t JWT_SECRET (now env) = Ok c /\
  c_role c <> JStr "admin" /\
  run_route r env req db = (Ok (SendStatus 403), db).
Proof.
  intros P r p t c env req db.
  assert (Hadm : admin_only DELETE_users_id) by (right; right; reflexivity).
  assert (Ht : bearer_token (headers req !! "authorization") = Some t)
    by (vm_compute; reflexivity).
  assert (Hv : jwt_verify t JWT_SECRET (now env) = Ok c) by (vm_compute; reflexivity).
  assert (Hr : c_role c <> JStr "admin") by discriminate.
  repeat (split; [assumption || reflexivity|]).
  destruct (authorize_admin_guard MariaDB DELETE_users_id r env req db t c
              eq_refl Hadm Ht Hv) as (Hdeny & _).
  destruct (Hdeny Hr) as (_ & Hany). apply (Hany My.delete_users_id).
Defined.

(** C10: [authorizeAdmin] answers every request: with no identity attached it
    answers 403, it never throws, and a route it guards neither runs its
    handler nor fails on such a request. *)
Theorem authorizeAdmin_total `{Platform} (env : Env) (req : Request) (db : Db) :
  (authorizeAdmin env req = Next req \/ authorizeAdmin env req = Reply (SendStatus 403)) /\
  (user req = None ->
     authorizeAdmin env req = Reply (SendStatus 403) /\
     forall h, run_route (mkRoute [authorizeAdmin] h) env req db = (Ok (SendStatus 403), db)) /\
  (authorizeAdmin env req = Next req ->
     exists u, user req = Some u /\ c_role u = JStr "admin").
Proof.
  rewrite authorizeAdmin_cases. destruct (user req) as [u|] eqn:Hu.
  - case_decide as Hr.
    + split; [by left|]. split; [done|]. intros _. by exists u.
    + split; [by right|]. split; done.
  - split; [by right|]. split; [|done]. intros _. split; [done|].
    intros h. unfold run_route. simpl. rewrite authorizeAdmin_cases, Hu. done.
Qed.

Lemma authorizeAdmin_total_witness :
  let P := Reference.platform in
  let env := mkEnv 0 None None in
  let req := mkRequest ∅ ∅ 3 None in
  user req = None /\ authorizeAdmin env req = Reply (SendStatus 403).
Proof.
  intros P env req. split; [reflexivity|].
  destruct (authorizeAdmin_total env req (mkDb [] 1)) as (_ & Hnone & _).
  apply (Hnone eq_refl).
Defined.

(** * Registration *)

Lemma missing_or_short_refused b : missing_or_short b -> registration_refused b = true.
Proof.
  unfold missing_or_short, registration_refused, prop.
  intros [Hn|[He|[Hp|(s & Hp & Hlen)]]].
  - by rewrite Hn.
  - rewrite He. simpl. by rewrite orb_true_r.
  - rewrite Hp. simpl. by rewrite orb_true_r.
  - rewrite Hp. simpl. apply orb_true_iff. right. by apply Nat.ltb_lt.
Qed.

Lemma post_users_refused `{Platform} v r env req db :
  app v POST_users = Some r -> registration_refused (body req) = true ->
  run_route r env req db = (Ok (StatusJson 400 registration_error), db).
Proof.
  intros Happ Href. unfold registration_refused in Href.
  destruct v; injection Happ as <-; unfold run_route; simpl;
    [unfold Pg.post_users | unfold My.post_users]; by rewrite Href.
Qed.

(** C3: a registration whose name, email or password is missing, or whose
    password is shorter than 8 characters, is answered 400 and leaves the
    store as it was. *)
Theorem register_invalid_400 `{Platform} (v : Driver) (r : Route)
    (env : Env) (req : Request) (db : Db) :
  app v POST_users = Some r ->
  missing_or_short (body req) ->
  answered (run_route r env req db) 400 (Some registration_error) /\
  (run_route r env req db).2 = db.
Proof.
  intros Happ Hbad.
  rewrite (post_users_refused v r env req db Happ (missing_or_short_refused _ Hbad)).
  split; [|done]. by exists (StatusJson 400 registration_error).
Qed.

Lemma register_invalid_400_witness :
  let P := Reference.platform in
  let r := mkRoute [] Pg.post_users in
  let env := mkEnv 0 None None in
  let req := mkRequest ∅ {[ "name" := JStr "Aoi"; "email" := JStr "aoi@example.org";
                             "password" := JStr "パスワード" ]} 0 None in
  let db := mkDb [] 1 in
  app PostgreSQL POST_users = Some r /\ missing_or_short (body req) /\
  answered (run_route r env req db) 400 (Some registration_error) /\
  (run_route r env req db).2 = db.
Proof.
  intros P r env req db.
  assert (Hbad : missing_or_short (body req)).
  { right; right; right. exists "パスワード". split; [reflexivity | vm_compute; lia]. }
  split; [reflexivity|]. split; [exact Hbad|].
  exact (register_invalid_400 PostgreSQL r env req db eq_refl Hbad).
Defined.

Ltac unfold_monad :=
  cbv beta iota delta [try_catch bind ret throw lift_promise] in *.

Ltac unfold_pg :=
  unfold Pg.post_users, Pg.post_login, Pg.put_users_me_password, Pg.get_users,
    Pg.delete_users_id, Pg.pool_query, Pg.first_row in *.

Ltac unfold_my :=
  unfold My.post_users, My.post_login, My.put_users_me_password, My.get_users,
    My.put_users_id, My.delete_users_id, My.conn_query, My.pool_getConnection,
    My.defined in *.

Ltac unfold_table :=
  unfold tbl_insert, tbl_by_email, tbl_all, tbl_set_password, tbl_set_profile,
    tbl_delete in *.

Lemma code_is_true e lit : code_is e lit = true <-> code e = Some lit.
Proof.
  unfold code_is. destruct (code e) as [c|]; [|done].
  rewrite String.eqb_eq. split; [by intros -> | by intros [= ->]].
Qed.

Lemma code_is_false e lit : code_is e lit = false <-> code e <> Some lit.
Proof.
  rewrite <- code_is_true. destruct (code_is e lit); split; congruence.
Qed.

(** What the registration handler answers to an error met at the store. *)
Lemma post_users_store_error `{Platform} v r env req db d e db' :
  app v POST_users = Some r ->
  registration_refused (body req) = false ->
  bcrypt_hash (prop (body req) "password") 10 = Some d ->
  insert_throws v env (body req) d db e db' ->
  run_route r env req db =
  (Ok (if code_is e (dup_code v) then StatusJson 409 conflict_error
       else StatusJson 500 server_error), db').
Proof.
  intros Happ Hok Hd Hthrow. unfold registration_refused in Hok.
  destruct v; injection Happ as <-; unfold run_route; simpl in *.
  - unfold Pg.post_users. rewrite Hok. unfold_monad. rewrite Hd. unfold_monad.
    rewrite Hthrow. by destruct (code_is e "23505").
  - unfold My.post_users. rewrite Hok. unfold_monad.
    destruct Hthrow as [Hc|[Hc Hq]]; rewrite Hc; [|rewrite Hd; unfold_monad; rewrite Hq];
      by destruct (code_is e "ER_DUP_ENTRY").
Qed.

Ltac absurd_answer := try destruct (code_is _ _); by simplify_eq.

(** A 201 means: the check passed, the digest was computed, and the INSERT
    added one record for an email that was not stored. *)
Lemma post_users_created `{Platform} v r env req db res db1 :
  app v POST_users = Some r ->
  run_route r env req db = (Ok res, db1) -> status_of res = 201 ->
  exists d,
    bcrypt_hash (prop (body req) "password") 10 = Some d /\
    (prop (body req) "email" ∉ email <$> users db) /\
    db1 = {| users := users db ++
                      [mkUser (next_id db) (prop (body req) "name")
                         (prop (body req) "email") d default_role];
             next_id := next_id db + 1 |}.
Proof.
  intros Happ Hrun Hst.
  destruct v; injection Happ as <-; unfold run_route in Hrun; simpl in Hrun.
  - unfold_pg. destruct (_ || _); unfold_monad; [by simplify_eq|].
    destruct (bcrypt_hash _ _) as [d|]; unfold_monad;
      [|absurd_answer].
    destruct (connect_fault env); unfold_monad;
      [absurd_answer|].
    destruct (query_fault env); unfold_table; unfold_monad;
      [absurd_answer|].
    case_decide; unfold_monad; simpl in Hrun;
      [absurd_answer|].
    simplify_eq. by exists d.
  - unfold_my. destruct (_ || _); unfold_monad; [by simplify_eq|].
    destruct (connect_fault env); unfold_monad;
      [absurd_answer|].
    destruct (bcrypt_hash _ _) as [d|]; unfold_monad;
      [|absurd_answer].
    destruct (query_fault env); unfold_table; unfold_monad;
      [absurd_answer|].
    case_decide; unfold_monad; simpl in Hrun;
      [absurd_answer|].
    simplify_eq. by exists d.
Qed.

Lemma with_email_absent e db : e ∉ email <$> users db -> with_email e db = [].
Proof.
  unfold with_email. induction (users db) as [|u l IH]; [done|].
  rewrite fmap_cons, not_elem_of_cons. intros [Hne Hl].
  rewrite filter_cons, decide_False by done. by apply IH.
Qed.


(** The INSERT of an email that is stored throws the driver's
    unique-violation error and changes nothing. *)
Lemma insert_duplicate_throws `{Platform} v env b d db :
  store_up env -> prop b "email" ∈ email <$> users db ->
  exists e, code e = Some (dup_code v) /\ insert_throws v env b d db e db.
Proof.
  intros [Hc Hq] Hin. destruct v; simpl.
  - exists Pg.dup_error. split; [done|]. unfold_pg. rewrite Hc, Hq.
    unfold_table. unfold_monad. by rewrite decide_True.
  - exists My.dup_error. split; [done|]. right. unfold_my. rewrite Hc, Hq.
    split; [done|]. unfold_table. unfold_monad. by rewrite decide_True.
Qed.

(** C4: an error met at the store during registration is answered 409 when
    its code is the driver's unique-violation code and 500 otherwise;
    registering again with an email that a first registration stored is
    answered 409, changes nothing, and one record holds that email. *)
Theorem register_store_errors `{Platform} (v : Driver) (r : Route) :
  app v POST_users = Some r ->
  (forall env req db d e db',
     registration_refused (body req) = false ->
     bcrypt_hash (prop (body req) "password") 10 = Some d ->
     insert_throws v env (body req) d db e db' ->
     (code e = Some (dup_code v) ->
        answered (run_route r env req db) 409 (Some conflict_error)) /\
     (code e <> Some (dup_code v) ->
        answered (run_route r env req db) 500 (Some server_error))) /\
  (forall env1 req1 db res1 db1 env2 req2,
     run_route r env1 req1 db = (Ok res1, db1) -> status_of res1 = 201 ->
     prop (body req2) "email" = prop (body req1) "email" ->
     registration_refused (body req2) = false ->
     is_Some (bcrypt_hash (prop (body req2) "password") 10) ->
     store_up env2 ->
     answered (run_route r env2 req2 db1) 409 (Some conflict_error) /\
     (run_route r env2 req2 db1).2 = db1 /\
     length (with_email (prop (body req1) "email") db1) = 1%nat).
Proof.
  intros Happ. split.
  - intros env req db d e db' Hok Hd Hthrow.
    rewrite (post_users_store_error v r env req db d e db' Happ Hok Hd Hthrow).
    split; intros Hcode.
    + rewrite (proj2 (code_is_true _ _) Hcode). by eexists.
    + rewrite (proj2 (code_is_false _ _) Hcode). by eexists.
  - intros env1 req1 db res1 db1 env2 req2 Hrun Hst Hsame Hok [d2 Hd2] Hup.
    destruct (post_users_created v r env1 req1 db res1 db1 Happ Hrun Hst)
      as (d1 & _ & Hfresh & ->).
    destruct (insert_duplicate_throws v env2 (body req2) d2
                {| users := users db ++
                     [mkUser (next_id db) (prop (body req1) "name")
                        (prop (body req1) "email") d1 default_role];
                   next_id := next_id db + 1 |} Hup) as (e & Hcode & Hthrow).
    { rewrite Hsame. simpl. rewrite fmap_app. apply elem_of_app. right.
      simpl. apply list_elem_of_singleton. done. }
    rewrite (post_users_store_error v r env2 req2 _ d2 e _ Happ Hok Hd2 Hthrow).
    rewrite (proj2 (code_is_true _ _) Hcode).
    split; [by eexists|]. split; [done|].
    unfold with_email. simpl. rewrite filter_app.
    fold (with_email (prop (body req1) "email") db).
    rewrite (with_email_absent _ _ Hfresh). simpl.
    rewrite filter_cons, decide_True by done. done.
Qed.

Lemma register_store_errors_witness :
  let P := Reference.platform in
  let r := mkRoute [] My.post_users in
  let env := mkEnv 0 None None in
  let req := mkRequest ∅ {[ "name" := JStr "Aoi"; "email" := JStr "aoi@example.org";
                             "password" := JStr "password1" ]} 0 None in
  let db := mkDb [] 1 in
  let res1 := StatusJson 201 (BObj {[ "id" := JNum 1; "name" := JStr "Aoi";
                                      "email" := JStr "aoi@example.org" ]}) in
  let db1 := mkDb [mkUser 1 (JStr "Aoi") (JStr "aoi@example.org") "$2b$password1"
                     (JStr "user")] 2 in
  app MariaDB POST_users = Some r /\
  run_route r env req db = (Ok res1, db1) /\ status_of res1 = 201 /\
  registration_refused (body req) = false /\
  is_Some (bcrypt_hash (prop (body req) "password") 10) /\
  store_up env /\
  answered (run_route r env req db1) 409 (Some conflict_error) /\
  (run_route r env req db1).2 = db1 /\
  length (with_email (JStr "aoi@example.org") db1) = 1%nat.
Proof.
  intros P r env req db res1 db1.
  assert (Hrun : run_route r env req db = (Ok res1, db1)) by (vm_compute; reflexivity).
  assert (Hok : registration_refused (body req) = false) by (vm_compute; reflexivity).
  assert (Hd : is_Some (bcrypt_hash (prop (body req) "password") 10))
    by (vm_compute; eexists; reflexivity).
  assert (Hup : store_up env) by (split; reflexivity).
  repeat (split; [assumption || reflexivity|]).
  destruct (register_store_errors MariaDB r eq_refl) as (_ & Htwice).
  exact (Htwice env req db res1 db1 env req Hrun eq_refl eq_refl Hok Hd Hup).
Defined.

(** * Login *)

Lemma row_full_password u : prop (row_full u) "password" = JStr (password u).
Proof. reflexivity. Qed.

Lemma row_full_id u : prop (row_full u) "id" = JNum (id u).
Proof. reflexivity. Qed.

Lemma row_full_email u : prop (row_full u) "email" = email u.
Proof. reflexivity. Qed.

Lemma row_full_role u : prop (row_full u) "role" = role u.
Proof. reflexivity. Qed.

(** The login handler on a well-formed request, when the store is up. *)
Lemma post_login_store_up `{Platform} v r env req db :
  app v POST_login = Some r -> store_up env -> login_well_formed (body req) ->
  run_route r env req db =
  match with_email (prop (body req) "email") db with
  | [] => (Ok (StatusJson 401 login_error), db)
  | u :: _ =>
      match bcrypt_compare (prop (body req) "password") (JStr (password u)) with
      | Some true => (Ok (StatusJson 200 (login_success (issued_token u (now env)))), db)
      | Some false => (Ok (StatusJson 401 login_error), db)
      | None => (Ok (StatusJson 500 server_error), db)
      end
  end.
Proof.
  intros Happ [Hc Hq] [He Hp]. unfold with_email.
  destruct v; injection Happ as <-; unfold run_route; simpl.
  - unfold_pg. rewrite He, Hp, Hc, Hq. simpl. unfold_table. unfold_monad. simpl.
    destruct (filter _ _) as [|u l]; simpl; [done|].
    rewrite row_full_password.
    destruct (bcrypt_compare _ _) as [[]|]; unfold_monad; done.
  - unfold_my. rewrite He, Hp, Hc, Hq. simpl. unfold_table. unfold_monad. simpl.
    destruct (filter _ _) as [|u l]; simpl; [done|].
    rewrite row_full_password.
    destruct (bcrypt_compare _ _) as [[]|]; unfold_monad; done.
Qed.




(** A 200 of the login handler: the first record with the email of the
    request matched the password, and the answer carries the token issued
    for that record. *)
Lemma post_login_200 `{Platform} v r env req db res db' :
  app v POST_login = Some r ->
  run_route r env req db = (Ok res, db') -> status_of res = 200 ->
  exists u,
    u ∈ users db /\ email u = prop (body req) "email" /\
    bcrypt_compare (prop (body req) "password") (JStr (password u)) = Some true /\
    res = StatusJson 200 (login_success (issued_token u (now env))) /\ db' = db.
Proof.
  intros Happ Hrun Hst.
  assert (Hfirst : forall e (u : User) l,
            filter (fun u' => email u' = e) (users db) = u :: l ->
            u ∈ users db /\ email u = e).
  { intros e u l Hf.
    assert (Hu : u ∈ filter (fun u' => email u' = e) (users db))
      by (rewrite Hf; apply list_elem_of_here).
    apply list_elem_of_filter in Hu as [? ?]. done. }
  destruct v; injection Happ as <-; unfold run_route in Hrun; simpl in Hrun.
  - unfold_pg. destruct (_ || _); unfold_monad; [by simplify_eq|].
    destruct (connect_fault env); unfold_monad; [by simplify_eq|].
    destruct (query_fault env); unfold_table; unfold_monad; [by simplify_eq|].
    destruct (filter _ _) as [|u l] eqn:Hf; simpl in Hrun; [by simplify_eq|].
    rewrite row_full_password in Hrun.
    destruct (bcrypt_compare _ _) as [[]|] eqn:Hcmp; unfold_monad; simplify_eq;
      try done.
    destruct (Hfirst _ u l Hf) as [Hin Hmail]. exists u.
    split; [done|]. split; [done|]. split; [done|]. split; reflexivity.
  - unfold_my. destruct (_ || _); unfold_monad; [by simplify_eq|].
    destruct (connect_fault env); unfold_monad; [by simplify_eq|].
    destruct (query_fault env); unfold_table; unfold_monad; [by simplify_eq|].
    destruct (filter _ _) as [|u l] eqn:Hf; simpl in Hrun; [by simplify_eq|].
    rewrite row_full_password in Hrun.
    destruct (bcrypt_compare _ _) as [[]|] eqn:Hcmp; unfold_monad; simplify_eq;
      try done.
    destruct (Hfirst _ u l Hf) as [Hin Hmail]. exists u.
    split; [done|]. split; [done|]. split; [done|]. split; reflexivity.
Qed.

(** A token is accepted by [authenticateToken] until one hour after it was
    issued, and refused from then on. *)
Lemma issued_token_window `{Platform} `{!TokenService} u iat env req :
  presents req (issued_token u iat) ->
  (now env < iat + 3600 ->
     authenticateToken env req =
     Next (set_user req (mkClaims (JNum (id u)) (email u) (role u) (iat + 3600)))) /\
  (iat + 3600 <= now env -> authenticateToken env req = Reply (SendStatus 403)).
Proof.
  intros Hreq. pose proof (authenticateToken_cases env req) as Hcases.
  rewrite Hreq, bearer_token_scheme in Hcases by apply sign_compact.
  unfold issued_token in Hcases. split; intros Ht.
  - by rewrite verify_fresh in Hcases.
  - destruct (verify_expired (mkPayload (JNum (id u)) (email u) (role u))
                JWT_SECRET iat (now env) Ht) as [e He].
    by rewrite He in Hcases.
Qed.

(** C6: the token of a successful login is signed over the id, email and
    role of the record that logged in, with expiry ['1h']; presented to a
    guarded route 59 minutes after issuance it authenticates as those claims
    with the expiry one hour after issuance and the pipeline goes on,
    presented 61 minutes after issuance it is answered 403. *)
Theorem login_token_lifetime `{Platform} `{!TokenService} (v : Driver) (r : Route)
    (env : Env) (req : Request) (db db' : Db) (res : Response) :
  app v POST_login = Some r ->
  run_route r env req db = (Ok res, db') -> status_of res = 200 ->
  exists u token,
    u ∈ users db /\ email u = prop (body req) "email" /\
    token = jwt_sign (mkPayload (JNum (id u)) (email u) (role u)) JWT_SECRET
              (mkSignOptions "1h") (now env) /\
    payload_of res = Some (login_success token) /\
    forall v' ep' r' env' req' db0,
      app v' ep' = Some r' -> guards r' <> [] -> presents req' token ->
      let claims := mkClaims (JNum (id u)) (email u) (role u) (now env + 60 * 60) in
      (now env' = now env + 59 * 60 ->
         authenticateToken env' req' = Next (set_user req' claims) /\
         run_route r' env' req' db0 =
           run_route (mkRoute (tail (guards r')) (handler r')) env' (set_user req' claims) db0) /\
      (now env' = now env + 61 * 60 ->
         authenticateToken env' req' = Reply (SendStatus 403) /\
         run_route r' env' req' db0 = (Ok (SendStatus 403), db0)).
Proof.
  intros Happ Hrun Hst.
  destruct (post_login_200 v r env req db res db' Happ Hrun Hst)
    as (u & Hin & Hmail & _ & -> & _).
  exists u, (issued_token u (now env)).
  split; [done|]. split; [done|]. split; [done|]. split; [done|].
  intros v' ep' r' env' req' db0 Happ' Hg Hreq claims.
  destruct (issued_token_window u (now env) env' req' Hreq) as [Hfresh Hold].
  rewrite (guarded_run v' ep' r' env' req' Happ' Hg).
  split; intros Hclock.
  - rewrite Hfresh by lia. done.
  - rewrite Hold by lia. done.
Qed.

(** The reference platform honours the contract of the token service. *)
Lemma undigits_digits p : Reference.undigits (Reference.digits p) = Some p.
Proof. induction p as [p IH|p IH|]; simpl; [by rewrite IH..|done]. Qed.

Lemma digits_compact p : free_of Ascii.Space (Reference.digits p) = true.
Proof. induction p as [p IH|p IH|]; simpl; done. Qed.

Lemma unseal_seal p key exp :
  Reference.unseal (Reference.seal p key exp)
  = Some (p_id p, p_email p, p_role p, key, exp).
Proof.
  unfold Reference.unseal, Reference.seal.
  rewrite undigits_digits. apply decode_encode.
Qed.

Lemma reference_token_service : @TokenService Reference.platform.
Proof.
  split; simpl.
  - intros p key iat t Ht. unfold Reference.verify, Reference.sign.
    change (Reference.span (mkSignOptions "1h")) with 3600.
    rewrite unseal_seal, String.eqb_refl.
    by rewrite (proj2 (Z.ltb_lt _ _) Ht).
  - intros p key iat t Ht. unfold Reference.verify, Reference.sign.
    change (Reference.span (mkSignOptions "1h")) with 3600.
    rewrite unseal_seal, String.eqb_refl.
    rewrite (proj2 (Z.ltb_ge _ _) Ht). by eexists.
  - intros p key o iat. apply digits_compact.
Qed.

Lemma login_token_lifetime_witness :
  let P := Reference.platform in
  let r := mkRoute [] Pg.post_login in
  let guarded := mkRoute [authenticateToken] Pg.put_users_me_password in
  let env := mkEnv 1000 None None in
  let u := mkUser 1 (JStr "Aoi") (JStr "aoi@example.org") "$2b$password1" (JStr "user") in
  let db := mkDb [u] 2 in
  let req := mkRequest ∅ {[ "email" := JStr "aoi@example.org";
                             "password" := JStr "password1" ]} 0 None in
  let token := issued_token u 1000 in
  let res := StatusJson 200 (login_success token) in
  let later := mkRequest {[ "authorization" := "Bearer " +:+ token ]} ∅ 0 None in
  app PostgreSQL POST_login = Some r /\
  run_route r env req db = (Ok res, db) /\ status_of res = 200 /\
  app PostgreSQL PUT_users_me_password = Some guarded /\ guards guarded <> [] /\
  presents later token /\
  authenticateToken (mkEnv (1000 + 59 * 60) None None) later =
    Next (set_user later (mkClaims (JNum 1) (JStr "aoi@example.org") (JStr "user") 4600)) /\
  run_route guarded (mkEnv (1000 + 61 * 60) None None) later db = (Ok (SendStatus 403), db).
Proof.
  intros P r guarded env u db req token res later.
  assert (Hrun : run_route r env req db = (Ok res, db)) by (vm_compute; reflexivity).
  assert (Hreq : presents later token) by (vm_compute; reflexivity).
  assert (Hg : guards guarded <> []) by discriminate.
  split; [reflexivity|]. split; [exact Hrun|]. split; [reflexivity|].
  split; [reflexivity|]. split; [exact Hg|]. split; [exact Hreq|].
  destruct (@login_token_lifetime P reference_token_service PostgreSQL r env req db db
              res eq_refl Hrun eq_refl)
    as (u' & token' & Hin & _ & Htok & Hpay & Hwin).
  apply list_elem_of_singleton in Hin. subst u'.
  assert (Hsame : token' = token) by exact Htok. subst token'.
  split.
  - exact (proj1 (proj1 (Hwin PostgreSQL PUT_users_me_password guarded
                           (mkEnv (1000 + 59 * 60) None None) later db eq_refl Hg Hreq)
                    eq_refl)).
  - exact (proj2 (proj2 (Hwin PostgreSQL PUT_users_me_password guarded
                           (mkEnv (1000 + 61 * 60) None None) later db eq_refl Hg Hreq)
                    eq_refl)).
Defined.

(** * Deletion *)

Lemma filter_all {A} (P : A -> Prop) `{!forall x, Decision (P x)} (l : list A) :
  (forall x, x ∈ l -> P x) -> filter P l = l.
Proof.
  induction l as [|x l IH]; intros Hall; [done|].
  rewrite filter_cons, decide_True by (apply Hall; left).
  f_equal. apply IH. intros y Hy. apply Hall. by right.
Qed.

Lemma filter_none {A} (P : A -> Prop) `{!forall x, Decision (P x)} (l : list A) :
  (forall x, x ∈ l -> ~ P x) -> filter P l = [].
Proof.
  induction l as [|x l IH]; intros Hall; [done|].
  rewrite filter_cons, decide_False by (apply Hall; left).
  apply IH. intros y Hy. apply Hall. by right.
Qed.

Lemma id_is_num i u : id_is (JNum i) u <-> id u = i.
Proof. unfold id_is. split; [by intros [= ->] | by intros ->]. Qed.

Lemma tbl_delete_num `{Platform} i db :
  tbl_delete (JNum i) db =
  (Ok (length (filter (fun u => id u = i) (users db))), without_id i db).
Proof.
  unfold tbl_delete, without_id. do 2 f_equal.
  - f_equal. apply list_filter_iff. intros u. apply id_is_num.
  - f_equal. apply list_filter_iff. intros u. by rewrite id_is_num.
Qed.

Lemma without_id_absent i db :
  (forall u, u ∈ users db -> id u <> i) -> without_id i db = db.
Proof.
  intros Hall. unfold without_id. rewrite filter_all by done. by destruct db.
Qed.

(** With unique ids, the deletion takes out one record and keeps the rest
    in place. *)
Lemma without_id_unique i db u :
  NoDup (id <$> users db) -> u ∈ users db -> id u = i ->
  exists l1 l2, users db = l1 ++ u :: l2 /\ users (without_id i db) = l1 ++ l2.
Proof.
  intros Hnd Hin Hid. apply list_elem_of_split in Hin as (l1 & l2 & Hl).
  exists l1, l2. split; [done|]. unfold without_id. simpl.
  rewrite Hl, fmap_app, fmap_cons in Hnd.
  apply NoDup_app in Hnd as (_ & Hl1 & Hnd2).
  apply NoDup_cons in Hnd2 as [Hl2 _].
  rewrite Hl, filter_app, filter_cons, decide_False by (intros Hne; by apply Hne).
  f_equal; apply filter_all; intros x Hx Heq.
  - apply (Hl1 (id x)); [by apply list_elem_of_fmap_2|]. rewrite Heq, <- Hid. left.
  - apply Hl2. rewrite Hid, <- Heq. by apply list_elem_of_fmap_2.
Qed.

(** The delete handler, when the store is up. *)
Lemma delete_store_up `{Platform} v r env req db :
  app v DELETE_users_id = Some r -> store_up env ->
  handler r env req db =
  (Ok (if (length (filter (fun u => id u = params_id req) (users db)) =? 0)%nat
       then StatusJson 404 not_found_error else StatusSend 204),
   without_id (params_id req) db).
Proof.
  intros Happ [Hc Hq].
  destruct v; injection Happ as <-; simpl.
  - unfold_pg. rewrite Hc, Hq. unfold_monad. rewrite tbl_delete_num. simpl.
    by destruct (_ =? _)%nat.
  - unfold_my. rewrite Hc, Hq. unfold_monad. rewrite tbl_delete_num. simpl.
    by destruct (_ =? _)%nat.
Qed.

(** C7: an admin-authorized DELETE for an id that no record has is answered
    404 and the store stays as it was; for an id that a record has it is
    answered 204 without payload, the records with other ids stay as they
    were, and with unique ids that one record is taken out of the table. *)
Theorem delete_user_frame `{Platform} (v : Driver) (r : Route)
    (env : Env) (req : Request) (db : Db) :
  app v DELETE_users_id = Some r -> store_up env -> admin_authorized env req ->
  let out := run_route r env req db in
  ((forall u, u ∈ users db -> id u <> params_id req) ->
     answered out 404 (Some not_found_error) /\ out.2 = db) /\
  ((exists u, u ∈ users db /\ id u = params_id req) ->
     out.1 = Ok (StatusSend 204) /\ answered out 204 None /\
     next_id out.2 = next_id db /\
     users out.2 = filter (fun u => id u <> params_id req) (users db) /\
     (NoDup (id <$> users db) ->
        exists l1 u l2, id u = params_id req /\
          users db = l1 ++ u :: l2 /\ users out.2 = l1 ++ l2)).
Proof.
  intros Happ Hup (t & c & Ht & Hv & Hrole) out. subst out.
  assert (Hadm : admin_only DELETE_users_id) by (right; by right).
  rewrite (admin_granted v _ r env req db t c Happ Hadm Ht Hv Hrole).
  rewrite (delete_store_up v r env (set_user req c) db Happ Hup). simpl.
  split.
  - intros Habsent.
    rewrite (filter_none (fun u => id u = params_id req)) by done. simpl.
    rewrite without_id_absent by done. split; [by eexists|done].
  - intros (u & Hin & Hid).
    destruct (filter (fun u => id u = params_id req) (users db)) as [|u' l'] eqn:Hf.
    { exfalso. eapply (filter_nil_not_elem_of _ _ u); eauto. }
    simpl. split; [done|]. split; [by eexists|]. split; [done|]. split; [done|].
    intros Hnd. destruct (without_id_unique _ db u Hnd Hin Hid) as (l1 & l2 & Hl & Hw).
    by exists l1, u, l2.
Qed.

Lemma delete_user_frame_witness :
  let P := Reference.platform in
  let r := mkRoute [authenticateToken; authorizeAdmin] Pg.delete_users_id in
  let root := mkUser 1 (JStr "Root") (JStr "root@example.org") "$2b$password0" (JStr "admin") in
  let aoi := mkUser 2 (JStr "Aoi") (JStr "aoi@example.org") "$2b$password1" (JStr "user") in
  let db := mkDb [root; aoi] 3 in
  let env := mkEnv 60 None None in
  let req := mkRequest {[ "authorization" := "Bearer " +:+ issued_token root 0 ]} ∅ 2 None in
  app PostgreSQL DELETE_users_id = Some r /\ store_up env /\ admin_authorized env req /\
  (exists u, u ∈ users db /\ id u = params_id req) /\
  (run_route r env req db).1 = Ok (StatusSend 204) /\
  users (run_route r env req db).2 = [root].
Proof.
  intros P r root aoi db env req.
  assert (Hup : store_up env) by (split; reflexivity).
  assert (Hadm : admin_authorized env req).
  { exists (issued_token root 0),
      (mkClaims (JNum 1) (JStr "root@example.org") (JStr "admin") 3600).
    repeat split; vm_compute; reflexivity. }
  assert (Hex : exists u, u ∈ users db /\ id u = params_id req).
  { exists aoi. split; [|reflexivity]. right. left. }
  split; [reflexivity|]. split; [exact Hup|]. split; [exact Hadm|].
  split; [exact Hex|].
  destruct (delete_user_frame PostgreSQL r env req db eq_refl Hup Hadm) as (_ & Hdel).
  destruct (Hdel Hex) as (H204 & _ & _ & Husers & _).
  split; [exact H204|]. rewrite Husers. vm_compute. reflexivity.
Defined.

(** * What the answers show *)

Section Returns.
Context {A B : Type}.

Lemma returns_ret (a : A) (Q : A -> Prop) : Q a -> returns (ret a) Q.
Proof. intros HQ db a' db' [= <- _]. exact HQ. Qed.

Lemma returns_throw (e : Err) (Q : A -> Prop) : returns (throw e) Q.
Proof. intros db a db' [=]. Qed.

Lemma returns_bind (m : M A) (k : A -> M B) (R : A -> Prop) (Q : B -> Prop) :
  returns m R -> (forall a, R a -> returns (k a) Q) -> returns (bind m k) Q.
Proof.
  intros Hm Hk db b db'. unfold bind.
  destruct (m db) as [[a|e] db1] eqn:Hrun; [|done].
  intros Hkb. exact (Hk a (Hm _ _ _ Hrun) _ _ _ Hkb).
Qed.

Lemma returns_try_catch (body : M A) (handler : Err -> M A) (Q : A -> Prop) :
  returns body Q -> (forall e, returns (handler e) Q) ->
  returns (try_catch body handler) Q.
Proof.
  intros Hb Hh db a db'. unfold try_catch.
  destruct (body db) as [[a'|e] db1] eqn:Hrun.
  - intros [= <- _]. exact (Hb _ _ _ Hrun).
  - apply Hh.
Qed.

Lemma returns_any (m : M A) : returns m (fun _ => True).
Proof. by intros db a db' _. Qed.

End Returns.

Lemma row_public_fields u :
  dom (row_public u) = public_fields /\
  row_public u !! "id" = Some (JNum (id u)) /\
  row_public u !! "name" = Some (name u) /\
  row_public u !! "email" = Some (email u) /\
  row_public u !! "role" = Some (role u) /\
  row_public u !! "password" = None.
Proof. repeat split; reflexivity. Qed.

Lemma hides_password_obj st (o : Obj) :
  o !! "password" = None -> hides_password (StatusJson st (BObj o)).
Proof. done. Qed.

Ltac hide_step :=
  first
    [ apply returns_ret; apply hides_password_obj; reflexivity
    | apply returns_ret; exact I
    | apply returns_throw
    | apply returns_try_catch; [|intros ?]
    | match goal with
      | |- returns (if ?b then _ else _) _ => destruct b
      | |- returns (match ?x with _ => _ end) _ => destruct x
      end
    | eapply returns_bind; [apply returns_any | intros ? _] ].

Lemma pg_select_users_rows `{Platform} env :
  returns (Pg.pool_query env Pg.SelectUsers)
    (fun result => Forall (fun o : Obj => o !! "password" = None) (Pg.rows result)).
Proof.
  intros db result db'. unfold_pg. destruct (connect_fault env); [done|].
  destruct (query_fault env); [done|].
  unfold_table. unfold_monad. intros [= <- _]. simpl.
  apply Forall_fmap, Forall_forall. intros u _. apply row_public_fields.
Qed.

Lemma my_select_users_rows `{Platform} env :
  returns (My.conn_query env My.SelectUsers)
    (fun rows => hides_password (StatusJson 200 (My.json_of rows))).
Proof.
  intros db result db'. unfold_my. destruct (query_fault env); [done|].
  unfold_table. unfold_monad. intros [= <- _]. unfold hides_password. simpl.
  apply Forall_fmap, Forall_forall. intros u _. apply row_public_fields.
Qed.

Lemma pg_handlers_hide_password `{Platform} env req :
  returns (Pg.post_users env req) hides_password /\
  returns (Pg.post_login env req) hides_password /\
  returns (Pg.put_users_me_password env req) hides_password /\
  returns (Pg.get_users env req) hides_password /\
  returns (Pg.delete_users_id env req) hides_password.
Proof.
  repeat split.
  - unfold Pg.post_users. repeat hide_step.
  - unfold Pg.post_login. repeat hide_step.
  - unfold Pg.put_users_me_password. repeat hide_step.
  - unfold Pg.get_users. apply returns_try_catch; [|intros ?; repeat hide_step].
    eapply returns_bind; [apply pg_select_users_rows|].
    intros result Hrows. by apply returns_ret.
  - unfold Pg.delete_users_id. repeat hide_step.
Qed.

Lemma my_handlers_hide_password `{Platform} env req :
  returns (My.post_users env req) hides_password /\
  returns (My.post_login env req) hides_password /\
  returns (My.put_users_me_password env req) hides_password /\
  returns (My.get_users env req) hides_password /\
  returns (My.put_users_id env req) hides_password /\
  returns (My.delete_users_id env req) hides_password.
Proof.
  repeat split.
  - unfold My.post_users. repeat hide_step.
  - unfold My.post_login. repeat hide_step.
  - unfold My.put_users_me_password. repeat hide_step.
  - unfold My.get_users. apply returns_try_catch; [|intros ?; repeat hide_step].
    eapply returns_bind; [apply returns_any|]. intros conn _.
    eapply returns_bind; [apply my_select_users_rows|].
    intros result Hrows. by apply returns_ret.
  - unfold My.put_users_id. repeat hide_step.
  - unfold My.delete_users_id. repeat hide_step.
Qed.

(** The guards answer with a bare status. *)
Lemma guards_reply_bare `{Platform} v ep r env req res :
  app v ep = Some r -> run_guards (guards r) env req = Reply res ->
  payload_of res = None.
Proof.
  intros Happ.
  assert (Hauth : forall res', authenticateToken env req = Reply res' -> payload_of res' = None).
  { intros res'. unfold authenticateToken.
    destruct (bearer_token _); [destruct (jwt_verify _ _ _)|]; by intros [= <-]. }
  assert (Hadm : forall req' res', authorizeAdmin env req' = Reply res' -> payload_of res' = None).
  { intros req' res'. rewrite authorizeAdmin_cases.
    destruct (user req'); [case_decide|]; by intros [= <-]. }
  destruct v, ep; simpl in Happ; try discriminate; injection Happ as <-; simpl;
    try done;
    destruct (authenticateToken env req) eqn:Ha; try (intros [= <-]; by apply Hauth);
    try done;
    destruct (authorizeAdmin env _) eqn:Hb; try (intros [= <-]; by eapply Hadm); done.
Qed.

Lemma handlers_hide_password `{Platform} v ep r env req :
  app v ep = Some r -> returns (handler r env req) hides_password.
Proof.
  intros Happ.
  destruct (pg_handlers_hide_password env req) as (? & ? & ? & ? & ?).
  destruct (my_handlers_hide_password env req) as (? & ? & ? & ? & ? & ?).
  destruct v, ep; simpl in Happ; try discriminate; injection Happ as <-; done.
Qed.

Lemma routes_hide_password `{Platform} v ep r env req :
  app v ep = Some r -> returns (run_route r env req) hides_password.
Proof.
  intros Happ db res db'. unfold run_route.
  destruct (run_guards (guards r) env req) as [req'|res'] eqn:Hg.
  - apply (handlers_hide_password v ep r env req' Happ).
  - intros [= <- _]. unfold hides_password.
    by rewrite (guards_reply_bare v ep r env req res' Happ Hg).
Qed.

(** The list handler, when the store is up. *)
Lemma get_users_store_up `{Platform} v r env req db :
  app v GET_users = Some r -> store_up env ->
  handler r env req db = (Ok (StatusJson 200 (BArr (row_public <$> users db))), db).
Proof.
  intros Happ [Hc Hq].
  destruct v; injection Happ as <-; simpl.
  - unfold_pg. rewrite Hc, Hq. unfold_table. by unfold_monad.
  - unfold_my. rewrite Hc, Hq. unfold_table. by unfold_monad.
Qed.

(** ** Every route answers *)

Lemma answers_ret res : answers (ret res).
Proof. intros db. by exists res, db. Qed.

Lemma answers_try_catch (body : M Response) (handler : Err -> M Response) :
  (forall e, answers (handler e)) -> answers (try_catch body handler).
Proof.
  intros Hh db. unfold try_catch.
  destruct (body db) as [[res|e] db1]; [by exists res, db1|]. apply Hh.
Qed.

Ltac answer_step :=
  first
    [ apply answers_ret
    | apply answers_try_catch; intros ?
    | match goal with
      | |- answers (if ?b then _ else _) => destruct b
      end ].

Lemma handlers_answer `{Platform} v ep r env req :
  app v ep = Some r -> is_Some (user req) \/ ep <> PUT_users_me_password ->
  answers (handler r env req).
Proof.
  intros Happ Huser.
  destruct v, ep; simpl in Happ; try discriminate; injection Happ as <-; simpl.
  - unfold Pg.post_users. repeat answer_step.
  - unfold Pg.post_login. repeat answer_step.
  - unfold Pg.put_users_me_password.
    destruct Huser as [[c ->]|]; [|done]. repeat answer_step.
  - unfold Pg.get_users. repeat answer_step.
  - unfold Pg.delete_users_id. repeat answer_step.
  - unfold My.post_users. repeat answer_step.
  - unfold My.post_login. repeat answer_step.
  - unfold My.put_users_me_password.
    destruct Huser as [[c ->]|]; [|done]. repeat answer_step.
  - unfold My.get_users. repeat answer_step.
  - unfold My.put_users_id. repeat answer_step.
  - unfold My.delete_users_id. repeat answer_step.
Qed.

(** No request makes a route of either variant end without an answer. *)
Lemma routes_answer `{Platform} v ep r env req :
  app v ep = Some r -> answers (run_route r env req).
Proof.
  intros Happ.
  destruct (decide (ep = PUT_users_me_password)) as [->|Hne].
  - assert (Hr : r = mkRoute [authenticateToken] (handler r))
      by (destruct v; simpl in Happ; by injection Happ as <-).
    rewrite Hr, run_route_unfold.
    pose proof (authenticateToken_cases env req) as Hcases.
    destruct (bearer_token _) as [t|]; [destruct (jwt_verify _ _ _) as [c|e]|];
      rewrite Hcases; try apply answers_ret.
    unfold run_route. simpl.
    apply (handlers_answer v PUT_users_me_password r); [done|]. left. by eexists.
  - unfold run_route. destruct (run_guards _ _ _) as [req'|res].
    + apply (handlers_answer v ep r); [done|by right].
    + apply answers_ret.
Qed.

(** ** The digests do not reach the answers *)

Lemma emails_scrub (l : list User) : email <$> (scrub_user <$> l) = email <$> l.
Proof. rewrite <- list_fmap_compose. by apply list_fmap_ext. Qed.

Lemma rows_scrub (l : list User) : row_public <$> (scrub_user <$> l) = row_public <$> l.
Proof. rewrite <- list_fmap_compose. by apply list_fmap_ext. Qed.

Lemma filter_scrub (P : User -> Prop) `{!forall u, Decision (P u)} (l : list User) :
  (forall u, P (scrub_user u) <-> P u) ->
  filter P (scrub_user <$> l) = scrub_user <$> filter P l.
Proof.
  intros HP. induction l as [|u l IH]; [done|].
  rewrite fmap_cons, !filter_cons, IH.
  destruct (decide (P u)) as [Hu|Hu].
  - by rewrite decide_True by (by apply HP).
  - by rewrite decide_False by (by rewrite HP).
Qed.

Lemma count_scrub v (l : list User) :
  length (filter (id_is v) (scrub_user <$> l)) = length (filter (id_is v) l).
Proof. rewrite filter_scrub by done. by rewrite length_fmap. Qed.

Lemma profile_emails_scrub n e r v (l : list User) :
  email <$> ((fun u => if decide (id_is v u) then set_profile n e r u else u)
             <$> (scrub_user <$> l))
  = email <$> ((fun u => if decide (id_is v u) then set_profile n e r u else u) <$> l).
Proof.
  rewrite <- !list_fmap_compose. apply list_fmap_ext. intros k u _. simpl.
  change (id_is v (scrub_user u)) with (id_is v u).
  by destruct (decide (id_is v u)).
Qed.

Ltac scrub_rewrite :=
  cbn [users next_id scrub];
  rewrite ?emails_scrub, ?count_scrub, ?rows_scrub, ?profile_emails_scrub.

(** Every handler but the login gives the same answer on a store and on the
    store without its digests. *)
Lemma handler_scrub `{Platform} v ep r env req db :
  app v ep = Some r -> ep <> POST_login ->
  (handler r env req db).1 = (handler r env req (scrub db)).1.
Proof.
  intros Happ Hep.
  destruct v, ep; simpl in Happ; try discriminate; try done; injection Happ as <-;
    simpl; unfold_pg; unfold_my;
    repeat match goal with
    | |- context [user ?r] => destruct (user r)
    | |- context [if ?b then ret _ else _] => destruct b
    | |- context [bcrypt_hash ?p ?n] => destruct (bcrypt_hash p n)
    | |- context [connect_fault ?e] => destruct (connect_fault e)
    | |- context [query_fault ?e] => destruct (query_fault e)
    end; try done; unfold_monad; unfold_table; scrub_rewrite; try done;
    repeat case_decide; simpl; try done;
    repeat case_match; simplify_eq/=; try done; congruence.
Qed.

Lemma with_email_scrub e db1 db2 :
  same_but_digests db1 db2 ->
  scrub_user <$> with_email e db1 = scrub_user <$> with_email e db2.
Proof.
  unfold same_but_digests, scrub, with_email. intros [= Hu _].
  rewrite <- !(filter_scrub (fun u => email u = e)) by done. by rewrite Hu.
Qed.

(** The login handler reads the digests only through the comparison. *)
Lemma login_scrub `{Platform} v r env req db1 db2 :
  app v POST_login = Some r ->
  same_but_digests db1 db2 -> same_comparison req db1 db2 ->
  (handler r env req db1).1 = (handler r env req db2).1.
Proof.
  intros Happ Hsame Hcmp.
  pose proof (with_email_scrub (prop (body req) "email") _ _ Hsame) as Hl.
  unfold same_comparison in Hcmp. unfold with_email in *.
  destruct v; simpl in Happ; injection Happ as <-; simpl; unfold_pg; unfold_my;
    (destruct (_ || _); [done|]);
    (destruct (connect_fault env); [done|]);
    (destruct (query_fault env); [done|]);
    unfold_monad; unfold_table; simpl;
    destruct (filter _ (users db1)) as [|u1 l1], (filter _ (users db2)) as [|u2 l2];
    try discriminate; simpl; try done;
    injection Hl as Hi _ He Hr _;
    rewrite !row_full_password, !row_full_id, !row_full_email, !row_full_role;
    rewrite (Hcmp u1 u2 eq_refl eq_refl), Hi, He, Hr;
    destruct (bcrypt_compare _ _) as [[]|]; done.
Qed.

(** The guards do not read the store, so a route reads the digests only
    where its handler does. *)
Lemma route_scrub `{Platform} v ep r env req db :
  app v ep = Some r -> ep <> POST_login ->
  (run_route r env req db).1 = (run_route r env req (scrub db)).1.
Proof.
  intros Happ Hep. unfold run_route.
  destruct (run_guards _ _ _); [|done]. by eapply handler_scrub.
Qed.

Lemma route_same_but_digests `{Platform} v ep r env req db1 db2 :
  app v ep = Some r -> ep <> POST_login -> same_but_digests db1 db2 ->
  (run_route r env req db1).1 = (run_route r env req db2).1.
Proof.
  intros Happ Hep Hsame.
  rewrite (route_scrub v ep r env req db1 Happ Hep).
  rewrite (route_scrub v ep r env req db2 Happ Hep).
  unfold same_but_digests in Hsame. by rewrite Hsame.
Qed.

Lemma login_same_but_digests `{Platform} v r env req db1 db2 :
  app v POST_login = Some r ->
  same_but_digests db1 db2 -> same_comparison req db1 db2 ->
  (run_route r env req db1).1 = (run_route r env req db2).1.
Proof.
  intros Happ Hsame Hcmp. unfold run_route.
  destruct (run_guards _ _ _) as [req'|] eqn:Hg; [|done].
  assert (req' = req) as ->.
  { destruct v; simpl in Happ; injection Happ as <-; simpl in Hg; congruence. }
  by eapply login_scrub.
Qed.


(** The digest a handler computes does not reach its answer either. *)
Lemma same_hash_cases (P : Platform) h p n :
  same_hash_outcome P h ->
  (h p n = None /\ @bcrypt_hash P p n = None) \/
  (exists d d', h p n = Some d /\ @bcrypt_hash P p n = Some d').
Proof.
  intros Hh. specialize (Hh p n).
  destruct (h p n) as [d|], (@bcrypt_hash P p n) as [d'|]; eauto.
  - destruct Hh as [Hh _]. destruct Hh as [? [=]]. by eexists.
  - destruct Hh as [_ Hh]. destruct Hh as [? [=]]. by eexists.
Qed.

Lemma handler_fresh_digest (P : Platform) h v ep r r' env req db :
  same_hash_outcome P h ->
  @app P v ep = Some r -> @app (with_hash P h) v ep = Some r' ->
  (handler r env req db).1 = (handler r' env req db).1.
Proof.
  intros Hh Happ Happ'.
  destruct v, ep; simpl in Happ, Happ'; try discriminate; try done;
    injection Happ as <-; injection Happ' as <-;
    simpl; unfold_pg; unfold_my; try reflexivity;
    change (@bcrypt_hash (with_hash P h)) with h;
    repeat match goal with
    | |- context [user ?r] => destruct (user r)
    | |- context [if ?b then ret _ else _] => destruct b
    | |- context [h ?p ?n] =>
        destruct (same_hash_cases P h p n Hh) as [[-> ->]|(d & d' & -> & ->)]
    | |- context [connect_fault ?e] => destruct (connect_fault e)
    | |- context [query_fault ?e] => destruct (query_fault e)
    end; try done; unfold_monad; unfold_table; try done;
    repeat case_decide; simpl; try done.
Qed.

Lemma route_fresh_digest (P : Platform) h v ep r r' env req db :
  same_hash_outcome P h ->
  @app P v ep = Some r -> @app (with_hash P h) v ep = Some r' ->
  (run_route r env req db).1 = (run_route r' env req db).1.
Proof.
  intros Hh Happ Happ'. unfold run_route.
  assert (guards r' = guards r) as ->.
  { destruct v, ep; simpl in Happ, Happ'; try discriminate;
      injection Happ as <-; injection Happ' as <-; reflexivity. }
  destruct (run_guards _ _ _); [|done]. by eapply handler_fresh_digest.
Qed.

(** C8: a successful admin-authorized GET /users is answered 200 with one
    item per stored record, in order, whose properties are id, name, email
    and role of the record and nothing else; every route answers every
    request, and no answer has a [password] property in its payload.  No
    digest is in any answer under any other name either: the answer of a
    route does not change when the stored digests are replaced (for the
    login, as long as the comparison with the submitted password comes out
    the same), nor when [bcrypt.hash] computes other digests. *)
Theorem list_users_public `{P : Platform} (v : Driver) :
  (forall r env req db,
     app v GET_users = Some r -> store_up env -> admin_authorized env req ->
     run_route r env req db = (Ok (StatusJson 200 (BArr (row_public <$> users db))), db) /\
     forall u, u ∈ users db ->
       dom (row_public u) = public_fields /\
       row_public u !! "id" = Some (JNum (id u)) /\
       row_public u !! "name" = Some (name u) /\
       row_public u !! "email" = Some (email u) /\
       row_public u !! "role" = Some (role u)) /\
  (forall ep r env req db,
     app v ep = Some r ->
     exists res db', run_route r env req db = (Ok res, db') /\ hides_password res) /\
  (forall ep r env req db1 db2,
     app v ep = Some r -> ep <> POST_login -> same_but_digests db1 db2 ->
     (run_route r env req db1).1 = (run_route r env req db2).1) /\
  (forall r env req db1 db2,
     app v POST_login = Some r ->
     same_but_digests db1 db2 -> same_comparison req db1 db2 ->
     (run_route r env req db1).1 = (run_route r env req db2).1) /\
  (forall h ep r r' env req db,
     same_hash_outcome P h ->
     app v ep = Some r -> @app (with_hash P h) v ep = Some r' ->
     (run_route r env req db).1 = (run_route r' env req db).1).
Proof.
  split; [|split; [|split; [|split]]].
  - intros r env req db Happ Hup (t & c & Ht & Hv & Hrole).
    assert (Hadm : admin_only GET_users) by by left.
    rewrite (admin_granted v _ r env req db t c Happ Hadm Ht Hv Hrole).
    split; [by apply (get_users_store_up v)|].
    intros u _. destruct (row_public_fields u) as (? & ? & ? & ? & ? & _). done.
  - intros ep r env req db Happ.
    destruct (routes_answer v ep r env req Happ db) as (res & db' & Hrun).
    exists res, db'. split; [exact Hrun|].
    exact (routes_hide_password v ep r env req Happ db res db' Hrun).
  - intros ep r env req db1 db2 Happ Hep Hsame.
    exact (route_same_but_digests v ep r env req db1 db2 Happ Hep Hsame).
  - intros r env req db1 db2 Happ Hsame Hcmp.
    exact (login_same_but_digests v r env req db1 db2 Happ Hsame Hcmp).
  - intros h ep r r' env req db Hh Happ Happ'.
    exact (route_fresh_digest P h v ep r r' env req db Hh Happ Happ').
Qed.

Lemma list_users_public_witness :
  let P := Reference.platform in
  let r := mkRoute [authenticateToken; authorizeAdmin] My.get_users in
  let root := mkUser 1 (JStr "Root") (JStr "root@example.org") "$2b$password0" (JStr "admin") in
  let root' := mkUser 1 (JStr "Root") (JStr "root@example.org") "$2b$password1" (JStr "admin") in
  let db := mkDb [root] 2 in
  let db' := mkDb [root'] 2 in
  let env := mkEnv 60 None None in
  let req := mkRequest {[ "authorization" := "Bearer " +:+ issued_token root 0 ]} ∅ 0 None in
  app MariaDB GET_users = Some r /\ store_up env /\ admin_authorized env req /\
  same_but_digests db db' /\ db <> db' /\
  run_route r env req db = (Ok (StatusJson 200 (BArr [row_public root])), db) /\
  hides_password (StatusJson 200 (BArr [row_public root])) /\
  (run_route r env req db).1 = (run_route r env req db').1.
Proof.
  intros P r root root' db db' env req.
  assert (Hup : store_up env) by (split; reflexivity).
  assert (Hadm : admin_authorized env req).
  { exists (issued_token root 0),
      (mkClaims (JNum 1) (JStr "root@example.org") (JStr "admin") 3600).
    repeat split; vm_compute; reflexivity. }
  assert (Hsame : same_but_digests db db') by reflexivity.
  split; [reflexivity|]. split; [exact Hup|]. split; [exact Hadm|].
  split; [exact Hsame|]. split; [discriminate|].
  destruct (list_users_public MariaDB) as (Hlist & Hhide & Hstored & _ & _).
  destruct (Hlist r env req db eq_refl Hup Hadm) as (Hrun & _).
  split; [exact Hrun|]. split.
  - destruct (Hhide GET_users r env req db eq_refl) as (res & db0 & Hrun' & Hres).
    rewrite Hrun in Hrun'. injection Hrun' as <- _. exact Hres.
  - apply (Hstored GET_users r env req db db' eq_refl); [discriminate|exact Hsame].
Defined.

(** * The two variants agree *)

Lemma ambient_codes e :
  ambient e -> code_is e "23505" = false /\ code_is e "ER_DUP_ENTRY" = false.
Proof. intros [? ?]. split; by apply code_is_false. Qed.

Ltac ambient_fault e :=
  let Ha := fresh "Ha" in
  assert (Ha : ambient e) by eauto;
  let H1 := fresh "Hpg" in
  let H2 := fresh "Hmy" in
  destruct (ambient_codes e Ha) as [H1 H2]; try rewrite H1; try rewrite H2.

Ltac fault_cases env :=
  let e1 := fresh "e" in
  let e2 := fresh "e" in
  destruct (connect_fault env) as [e1|] eqn:?; [ambient_fault e1|];
  (destruct (query_fault env) as [e2|] eqn:?; [ambient_fault e2|]).

Ltac agree_cases env :=
  unfold_pg; unfold_my; unfold_monad; fault_cases env.

Ltac agree_finish :=
  unfold_table; unfold_monad;
  repeat match goal with
         | Hcode : code_is _ _ = false |- _ => rewrite Hcode
         end;
  try case_decide; simpl; try done.

Lemma post_users_agree `{Platform} env req db :
  ambient_faults env -> Pg.post_users env req db = My.post_users env req db.
Proof.
  intros [Hcf Hqf]. unfold Pg.post_users, My.post_users.
  destruct (_ || _); [done|].
  agree_cases env; destruct (bcrypt_hash _ _) as [d|]; agree_finish.
Qed.

Lemma post_login_agree `{Platform} env req db :
  ambient_faults env -> Pg.post_login env req db = My.post_login env req db.
Proof.
  intros [Hcf Hqf]. unfold Pg.post_login, My.post_login.
  destruct (_ || _); [done|].
  agree_cases env; agree_finish.
  all: destruct (filter _ _) as [|u l]; simpl; [done|].
  all: destruct (bcrypt_compare _ _) as [[]|]; by unfold_monad.
Qed.

Lemma put_users_me_password_agree `{Platform} env req db :
  ambient_faults env ->
  Pg.put_users_me_password env req db = My.put_users_me_password env req db.
Proof.
  intros [Hcf Hqf]. unfold Pg.put_users_me_password, My.put_users_me_password.
  destruct (user req) as [u|]; [|done].
  destruct (_ || _); [done|].
  agree_cases env; destruct (bcrypt_hash _ _) as [d|]; agree_finish.
Qed.

Lemma get_users_agree `{Platform} env req db :
  ambient_faults env -> Pg.get_users env req db = My.get_users env req db.
Proof.
  intros [Hcf Hqf]. unfold Pg.get_users, My.get_users.
  agree_cases env; agree_finish.
Qed.

Lemma delete_users_id_agree `{Platform} env req db :
  ambient_faults env -> Pg.delete_users_id env req db = My.delete_users_id env req db.
Proof.
  intros [Hcf Hqf]. unfold Pg.delete_users_id, My.delete_users_id.
  agree_cases env; agree_finish.
  all: by destruct (length _).
Qed.

(** C9: the variant without the update route and the variant with it give,
    on the same store and under the same conditions of the infrastructure,
    the same answer (hence the same status and payload shape) and the same
    resulting store on the register, login, change-password, list and delete
    routes. *)
Theorem variants_agree `{Platform} (ep : Endpoint) (r_pg r_my : Route)
    (env : Env) (req : Request) (db : Db) :
  ep <> PUT_users_id ->
  app PostgreSQL ep = Some r_pg -> app MariaDB ep = Some r_my ->
  ambient_faults env ->
  app PostgreSQL PUT_users_id = None /\ is_Some (app MariaDB PUT_users_id) /\
  run_route r_pg env req db = run_route r_my env req db /\
  forall res_pg res_my,
    (run_route r_pg env req db).1 = Ok res_pg ->
    (run_route r_my env req db).1 = Ok res_my ->
    shape_of res_pg = shape_of res_my.
Proof.
  intros Hep Hpg Hmy Hamb.
  assert (Hsame : run_route r_pg env req db = run_route r_my env req db).
  { destruct ep; try done; simpl in Hpg, Hmy;
      injection Hpg as <-; injection Hmy as <-; unfold run_route; simpl.
    - by apply post_users_agree.
    - by apply post_login_agree.
    - destruct (authenticateToken env req); [|done].
      by apply put_users_me_password_agree.
    - destruct (authenticateToken env req) as [req'|]; [|done].
      destruct (authorizeAdmin env req'); [|done]. by apply get_users_agree.
    - destruct (authenticateToken env req) as [req'|]; [|done].
      destruct (authorizeAdmin env req'); [|done]. by apply delete_users_id_agree. }
  split; [done|]. split; [by eexists|]. split; [exact Hsame|].
  intros res_pg res_my Hres_pg Hres_my. rewrite Hsame in Hres_pg. congruence.
Qed.

Lemma variants_agree_witness :
  let P := Reference.platform in
  let r_pg := mkRoute [] Pg.post_users in
  let r_my := mkRoute [] My.post_users in
  let env := mkEnv 0 None (Some (mkErr (Some "ECONNRESET") "read ECONNRESET")) in
  let req := mkRequest ∅ {[ "name" := JStr "Aoi"; "email" := JStr "aoi@example.org";
                             "password" := JStr "password1" ]} 0 None in
  let db := mkDb [] 1 in
  POST_users <> PUT_users_id /\
  app PostgreSQL POST_users = Some r_pg /\ app MariaDB POST_users = Some r_my /\
  ambient_faults env /\
  run_route r_pg env req db = run_route r_my env req db /\
  run_route r_my env req db = (Ok (StatusJson 500 server_error), db).
Proof.
  intros P r_pg r_my env req db.
  assert (Hep : POST_users <> PUT_users_id) by discriminate.
  assert (Hamb : ambient_faults env).
  { split; intros e; simpl; [discriminate|]. intros [= <-]. split; discriminate. }
  split; [exact Hep|]. split; [reflexivity|]. split; [reflexivity|].
  split; [exact Hamb|].
  destruct (variants_agree POST_users r_pg r_my env req db Hep eq_refl eq_refl Hamb)
    as (_ & _ & Hsame & _).
  split; [exact Hsame|]. vm_compute. reflexivity.
Defined.

(** * The constraints of the table are kept *)

Section Preserves.
Context {A B : Type} (I : Db -> Prop).

Lemma preserves_ret (a : A) : preserves (ret a) I.
Proof. by intros db out db' HI [= _ <-]. Qed.

Lemma preserves_throw (e : Err) : preserves (@throw A e) I.
Proof. by intros db out db' HI [= _ <-]. Qed.

Lemma preserves_lift (o : option A) : preserves (lift_promise o) I.
Proof. destruct o; [apply preserves_ret | apply preserves_throw]. Qed.

Lemma preserves_bind (m : M A) (k : A -> M B) :
  preserves m I -> (forall a, preserves (k a) I) -> preserves (bind m k) I.
Proof.
  intros Hm Hk db out db' HI. unfold bind.
  destruct (m db) as [[a|e] db1] eqn:Hrun.
  - apply (Hk a). exact (Hm _ _ _ HI Hrun).
  - intros [= _ <-]. exact (Hm _ _ _ HI Hrun).
Qed.

Lemma preserves_try_catch (body : M A) (handler : Err -> M A) :
  preserves body I -> (forall e, preserves (handler e) I) ->
  preserves (try_catch body handler) I.
Proof.
  intros Hb Hh db out db' HI. unfold try_catch.
  destruct (body db) as [[a|e] db1] eqn:Hrun.
  - intros [= _ <-]. exact (Hb _ _ _ HI Hrun).
  - apply (Hh e). exact (Hb _ _ _ HI Hrun).
Qed.

End Preserves.

Lemma fmap_id_update (f : User -> User) (l : list User) :
  (forall u, id (f u) = id u) -> id <$> (f <$> l) = id <$> l.
Proof.
  intros Hf. rewrite <- list_fmap_compose. apply list_fmap_ext.
  intros i u _. apply Hf.
Qed.

Lemma tbl_insert_ok `{Platform} dup n e d : preserves (tbl_insert dup n e d) db_ok.
Proof.
  intros db out db' (Hid & Hmail & Hlt). unfold tbl_insert.
  case_decide as Hin; intros [= _ <-]; [done|]. unfold db_ok. simpl.
  rewrite !fmap_app. simpl. split; [|split].
  - apply NoDup_app. split; [done|]. split; [|apply NoDup_singleton].
    intros i (u & -> & Hu)%list_elem_of_fmap Hnew%list_elem_of_singleton.
    rewrite Forall_forall in Hlt. specialize (Hlt u Hu). lia.
  - apply NoDup_app. split; [done|]. split; [|apply NoDup_singleton].
    intros m Hm Hnew%list_elem_of_singleton. by subst m.
  - apply Forall_app. split.
    + eapply Forall_impl; [exact Hlt|]. simpl. intros u Hu. lia.
    + apply Forall_singleton. simpl. lia.
Qed.

Lemma tbl_set_password_ok `{Platform} d v : preserves (tbl_set_password d v) db_ok.
Proof.
  intros db out db' (Hid & Hmail & Hlt). unfold tbl_set_password.
  intros [= _ <-]. unfold db_ok. simpl. split; [|split].
  - rewrite fmap_id_update; [done|]. intros u. by case_decide.
  - rewrite <- list_fmap_compose.
    rewrite (list_fmap_ext _ email (users db) ); [done|].
    intros i u _. simpl. by case_decide.
  - apply Forall_fmap. eapply Forall_impl; [exact Hlt|].
    intros u Hu. simpl. by case_decide.
Qed.

Lemma tbl_set_profile_ok `{Platform} dup n e r v :
  preserves (tbl_set_profile dup n e r v) db_ok.
Proof.
  intros db out db' (Hid & Hmail & Hlt). unfold tbl_set_profile.
  case_decide as Hnd; intros [= _ <-]; [|done]. unfold db_ok. simpl.
  split; [|split; [done|]].
  - rewrite fmap_id_update; [done|]. intros u. by case_decide.
  - apply Forall_fmap. eapply Forall_impl; [exact Hlt|].
    intros u Hu. simpl. by case_decide.
Qed.

Lemma tbl_delete_ok `{Platform} v : preserves (tbl_delete v) db_ok.
Proof.
  intros db out db' (Hid & Hmail & Hlt). unfold tbl_delete.
  intros [= _ <-]. unfold db_ok. simpl. split; [|split].
  - eapply sublist_NoDup; [exact Hid|]. apply fmap_sublist, sublist_filter.
  - eapply sublist_NoDup; [exact Hmail|]. apply fmap_sublist, sublist_filter.
  - apply Forall_forall. intros u [_ Hu]%list_elem_of_filter.
    rewrite Forall_forall in Hlt. by apply Hlt.
Qed.

Lemma tbl_by_email_ok `{Platform} e : preserves (tbl_by_email e) db_ok.
Proof. by intros db out db' Hok [= _ <-]. Qed.

Lemma tbl_all_ok `{Platform} : preserves tbl_all db_ok.
Proof. by intros db out db' Hok [= _ <-]. Qed.

Ltac keep_step :=
  first
    [ apply preserves_ret
    | apply preserves_throw
    | apply preserves_lift
    | apply tbl_insert_ok
    | apply tbl_set_password_ok
    | apply tbl_set_profile_ok
    | apply tbl_delete_ok
    | apply tbl_by_email_ok
    | apply tbl_all_ok
    | apply preserves_try_catch; [|intros ?]
    | apply preserves_bind; [|intros ?]
    | match goal with
      | |- preserves (if ?b then _ else _) _ => destruct b
      | |- preserves (match ?x with _ => _ end) _ => destruct x
      end ].

Lemma pg_pool_query_ok `{Platform} env sql : preserves (Pg.pool_query env sql) db_ok.
Proof. unfold Pg.pool_query. repeat keep_step. Qed.

Lemma my_conn_query_ok `{Platform} env sql : preserves (My.conn_query env sql) db_ok.
Proof. unfold My.conn_query. repeat keep_step. Qed.

Lemma my_getConnection_ok `{Platform} env : preserves (My.pool_getConnection env) db_ok.
Proof. unfold My.pool_getConnection. repeat keep_step. Qed.

Ltac keep_handler :=
  repeat first
    [ apply pg_pool_query_ok
    | apply my_conn_query_ok
    | apply my_getConnection_ok
    | keep_step ].

Lemma handlers_keep_constraints `{Platform} v ep r env req :
  app v ep = Some r -> preserves (handler r env req) db_ok.
Proof.
  intros Happ.
  destruct v, ep; simpl in Happ; try discriminate; injection Happ as <-; simpl.
  - unfold Pg.post_users, Pg.first_row. keep_handler.
  - unfold Pg.post_login, Pg.first_row. keep_handler.
  - unfold Pg.put_users_me_password. keep_handler.
  - unfold Pg.get_users. keep_handler.
  - unfold Pg.delete_users_id. keep_handler.
  - unfold My.post_users. keep_handler.
  - unfold My.post_login, My.defined. keep_handler.
  - unfold My.put_users_me_password. keep_handler.
  - unfold My.get_users. keep_handler.
  - unfold My.put_users_id. keep_handler.
  - unfold My.delete_users_id. keep_handler.
Qed.

(** Every route of both variants keeps the constraints of the table,
    whatever the request and however it ends. *)
Lemma routes_keep_constraints `{Platform} v ep r env req :
  app v ep = Some r -> preserves (run_route r env req) db_ok.
Proof.
  intros Happ. unfold run_route.
  destruct (run_guards (guards r) env req) as [req'|res].
  - by apply (handlers_keep_constraints v ep).
  - apply preserves_ret.
Qed.

(** The empty table satisfies the constraints. *)
Lemma empty_db_ok i : db_ok (mkDb [] i).
Proof. repeat split; constructor. Qed.

(** * Beyond the gate: the handlers in full *)

(** A request that passes the guards of a route reaches the handler; behind
    [authenticateToken] it carries the claims of its token, and behind
    [authorizeAdmin] their role is ['admin']. *)
Lemma guards_pass `{Platform} v ep r env req req' :
  app v ep = Some r -> run_guards (guards r) env req = Next req' ->
  run_route r env req = handler r env req' /\
  body req' = body req /\ params_id req' = params_id req /\
  (guards r = [] -> req' = req) /\
  (guards r <> [] ->
     exists c, authenticateToken env req = Next (set_user req c) /\
               req' = set_user req c /\
               (admin_only ep -> c_role c = JStr "admin")).
Proof.
  intros Happ Hg. unfold run_route. rewrite Hg. split; [done|].
  assert (Hadm : forall c, authorizeAdmin env (set_user req c) = Next req' ->
            req' = set_user req c /\ c_role c = JStr "admin").
  { intros c. rewrite authorizeAdmin_cases. simpl.
    case_decide; [|done]. by intros [= <-]. }
  assert (Huser : forall req0, authenticateToken env req = Next req0 ->
            exists c, req0 = set_user req c).
  { intros req0. pose proof (authenticateToken_cases env req) as Hc.
    destruct (bearer_token _); [destruct (jwt_verify _ _ _) as [c|]|];
      rewrite Hc; try done. intros [= <-]. by exists c. }
  destruct v, ep; simpl in Happ; try discriminate; injection Happ as <-;
    simpl in Hg |- *;
    try (injection Hg as <-; by repeat split);
    destruct (authenticateToken env req) as [req0|] eqn:Ha; try done;
    destruct (Huser req0 eq_refl) as [c ->];
    try (injection Hg as <-; repeat split; try done; intros _; exists c;
         repeat split; try done; by intros [|[|]]);
    destruct (authorizeAdmin env (set_user req c)) eqn:Hb; try done;
    injection Hg as ->; destruct (Hadm c Hb) as [-> Hrole];
    repeat split; try done; intros _; by exists c.
Qed.

(** A request that the guards stop is answered by them, with a bare 401 or
    403, and the store is not touched. *)
Lemma guards_stop `{Platform} v ep r env req res db :
  app v ep = Some r -> run_guards (guards r) env req = Reply res ->
  run_route r env req db = (Ok res, db) /\
  (res = SendStatus 401 \/ res = SendStatus 403).
Proof.
  intros Happ Hg. unfold run_route. rewrite Hg. split; [done|].
  assert (Hauth : forall res', authenticateToken env req = Reply res' ->
            res' = SendStatus 401 \/ res' = SendStatus 403).
  { intros res'. pose proof (authenticateToken_cases env req) as Hc.
    destruct (bearer_token _); [destruct (jwt_verify _ _ _)|]; rewrite Hc;
      intros [= <-]; auto. }
  assert (Hadm : forall req0 res', authorizeAdmin env req0 = Reply res' ->
            res' = SendStatus 403).
  { intros req0 res'. rewrite authorizeAdmin_cases.
    destruct (user req0); [case_decide|]; by intros [= <-]. }
  destruct v, ep; simpl in Happ; try discriminate; injection Happ as <-;
    simpl in Hg; try done;
    destruct (authenticateToken env req) as [req0|] eqn:Ha;
    try (injection Hg as <-; by apply Hauth); try done;
    destruct (authorizeAdmin env req0) eqn:Hb; try done;
    injection Hg as <-; right; by eapply Hadm.
Qed.

(** The check comes first: a refused body is answered 400 by the handler
    before it calls bcrypt or the store. *)
Lemma handler_refused `{Platform} v ep r env req db err :
  app v ep = Some r -> check ep (body req) = Some err ->
  (guards r <> [] -> is_Some (user req)) ->
  handler r env req db = (Ok (StatusJson 400 err), db).
Proof.
  intros Happ Hcheck Huser.
  destruct v, ep; simpl in Happ; try discriminate; injection Happ as <-;
    simpl in *; try discriminate;
    try (destruct Huser as [c Hc]; [done|]);
    match type of Hcheck with
    | (if ?b then _ else _) = _ => destruct b eqn:Hb; [injection Hcheck as <-|done]
    end.
  - unfold Pg.post_users. unfold registration_refused in Hb. by rewrite Hb.
  - unfold Pg.post_login. unfold login_refused in Hb. by rewrite Hb.
  - unfold Pg.put_users_me_password. rewrite Hc. unfold password_refused in Hb.
    by rewrite Hb.
  - unfold My.post_users. unfold registration_refused in Hb. by rewrite Hb.
  - unfold My.post_login. unfold login_refused in Hb. by rewrite Hb.
  - unfold My.put_users_me_password. rewrite Hc. unfold password_refused in Hb.
    by rewrite Hb.
  - unfold My.put_users_id. unfold profile_refused in Hb. by rewrite Hb.
Qed.

Lemma check_none ep b :
  check ep b = None ->
  match ep with
  | POST_users => registration_refused b = false
  | POST_login => login_refused b = false
  | PUT_users_me_password => password_refused b = false
  | PUT_users_id => profile_refused b = false
  | GET_users | DELETE_users_id => True
  end.
Proof. destruct ep; simpl; try done; by destruct (_ b). Qed.

Lemma store_down_cases env :
  store_down env ->
  (exists e, connect_fault env = Some e) \/
  (connect_fault env = None /\ exists e, query_fault env = Some e).
Proof.
  intros [Hc|Hq].
  - destruct (connect_fault env) as [e|]; [|done]. left. by exists e.
  - destruct (connect_fault env) as [e|]; [left; by exists e|]. right.
    split; [done|]. destruct (query_fault env) as [e|]; [|done]. by exists e.
Qed.

(** When the store is down, every handler but the registration answers 500
    with the generic payload and leaves the store as it was. *)
Lemma handler_store_down `{Platform} v ep r env req db :
  app v ep = Some r -> ep <> POST_users -> check ep (body req) = None ->
  (guards r <> [] -> is_Some (user req)) -> store_down env ->
  handler r env req db = (Ok (StatusJson 500 server_error), db).
Proof.
  intros Happ Hep Hcheck Huser Hdown. apply check_none in Hcheck.
  apply store_down_cases in Hdown as [[e He]|[Hc [e He]]];
  destruct v, ep; simpl in Happ; try discriminate; try done;
    injection Happ as <-; simpl in *;
    try (destruct Huser as [c Hu]; [done|]).
  all: unfold_pg; unfold_my;
    unfold login_refused, password_refused, profile_refused in *;
    rewrite ?Hu, ?Hcheck; unfold_monad; rewrite ?Hc, ?He; unfold_monad;
    try (destruct (bcrypt_hash _ _); unfold_monad; rewrite ?Hc, ?He);
    done.
Qed.

(** When the store is down, the registration handler answers 409 or 500 (by
    the code of the error) and leaves the store as it was. *)
Lemma post_users_store_down `{Platform} v r env req db :
  app v POST_users = Some r -> store_down env ->
  exists res, handler r env req db = (Ok res, db) /\
    (status_of res = 400 \/ status_of res = 409 \/ status_of res = 500).
Proof.
  intros Happ Hdown.
  apply store_down_cases in Hdown as [[e He]|[Hc [e He]]];
    destruct v; injection Happ as <-; simpl;
    unfold_pg; unfold_my; (destruct (_ || _); [eexists; split; [done|]; by left|]);
    unfold_monad; rewrite ?Hc, ?He; unfold_monad;
    try (destruct (bcrypt_hash _ _); unfold_monad; rewrite ?Hc, ?He; unfold_monad);
    try destruct (code_is _ _); eexists; (split; [done|]); simpl; auto.
Qed.

(** The registration handler, when the store is up. *)
Lemma post_users_store_up `{Platform} v r env req db :
  app v POST_users = Some r -> store_up env ->
  registration_refused (body req) = false ->
  handler r env req db =
  match bcrypt_hash (prop (body req) "password") 10 with
  | None => (Ok (StatusJson 500 server_error), db)
  | Some d =>
      if decide (prop (body req) "email" ∈ email <$> users db)
      then (Ok (StatusJson 409 conflict_error), db)
      else (Ok (StatusJson 201
                  (created (next_id db) (prop (body req) "name") (prop (body req) "email"))),
            with_new_user (prop (body req) "name") (prop (body req) "email") d db)
  end.
Proof.
  intros Happ [Hc Hq] Hok. unfold registration_refused in Hok.
  destruct v; injection Happ as <-; simpl; unfold_pg; unfold_my;
    rewrite Hok; unfold_monad; rewrite ?Hc; unfold_monad;
    (destruct (bcrypt_hash _ _) as [d|]; unfold_monad; [|done]);
    rewrite ?Hc, Hq; unfold_table; unfold_monad;
    by case_decide.
Qed.

(** The change-password handler, when the store is up. *)
Lemma put_password_store_up `{Platform} v r env req db c :
  app v PUT_users_me_password = Some r -> store_up env ->
  user req = Some c -> password_refused (body req) = false ->
  handler r env req db =
  match bcrypt_hash (prop (body req) "newPassword") 10 with
  | None => (Ok (StatusJson 500 server_error), db)
  | Some d => (Ok (StatusJson 200 password_changed), with_password d (c_id c) db)
  end.
Proof.
  intros Happ [Hc Hq] Hu Hok. unfold password_refused in Hok.
  destruct v; injection Happ as <-; simpl; unfold_pg; unfold_my;
    rewrite Hu, Hok; unfold_monad; rewrite ?Hc; unfold_monad;
    (destruct (bcrypt_hash _ _) as [d|]; unfold_monad; [|done]);
    rewrite ?Hc, Hq; unfold_table; by unfold_monad.
Qed.

(** The update handler (MariaDB variant only), when the store is up. *)
Lemma put_users_id_store_up `{Platform} r env req db :
  app MariaDB PUT_users_id = Some r -> store_up env ->
  profile_refused (body req) = false ->
  let n := prop (body req) "name" in
  let e := prop (body req) "email" in
  let ro := prop (body req) "role" in
  let i := params_id req in
  handler r env req db =
  if decide (NoDup (email <$> users (with_profile n e ro (JNum i) db))) then
    if decide (with_id i db = [])
    then (Ok (StatusJson 404 not_found_error), with_profile n e ro (JNum i) db)
    else (Ok (StatusJson 200 (updated i n e ro)), with_profile n e ro (JNum i) db)
  else (Ok (StatusJson 500 server_error), db).
Proof.
  intros Happ [Hc Hq] Hok n e ro i. unfold profile_refused in Hok.
  injection Happ as <-. simpl. unfold_my. rewrite Hok. unfold_monad.
  rewrite Hc, Hq. unfold_table. unfold_monad. fold n e ro i.
  unfold with_profile. simpl. case_decide as Hnd; [|done]. simpl.
  assert (Hf : filter (id_is (JNum i)) (users db) = with_id i db).
  { unfold with_id. apply list_filter_iff. intros u. apply id_is_num. }
  rewrite Hf. case_decide as Hnil.
  - by rewrite Hnil.
  - by destruct (with_id i db).
Qed.

Lemma with_profile_absent n e r i db :
  with_id i db = [] -> with_profile n e r (JNum i) db = db.
Proof.
  intros Hnil. unfold with_profile.
  assert (Hsame : (fun u => if decide (id_is (JNum i) u) then set_profile n e r u else u)
                  <$> users db = users db).
  { rewrite <- (list_fmap_id (users db)) at 2. apply list_fmap_ext.
    intros k u Hu. case_decide as Hid; [|done]. exfalso.
    apply id_is_num in Hid.
    eapply (filter_nil_not_elem_of _ _ u Hnil Hid), list_elem_of_lookup_2, Hu. }
  rewrite Hsame. by destruct db.
Qed.

Lemma store_up_or_down env : store_up env \/ store_down env.
Proof.
  unfold store_up, store_down.
  destruct (connect_fault env), (query_fault env); auto.
Qed.

(** X1: whatever the state of the store, a request that passes the guards of
    a route and fails the check of its handler is answered 400 with the
    message of that check, and the store is left as it was. *)
Theorem checks_come_first `{Platform} (v : Driver) (ep : Endpoint) (r : Route)
    (env : Env) (req req' : Request) (db : Db) (err : Body) :
  app v ep = Some r -> run_guards (guards r) env req = Next req' ->
  check ep (body req) = Some err ->
  run_route r env req db = (Ok (StatusJson 400 err), db).
Proof.
  intros Happ Hg Hcheck.
  destruct (guards_pass v ep r env req req' Happ Hg) as (-> & Hbody & _ & _ & Hc).
  apply (handler_refused v ep); [done|by rewrite Hbody|].
  intros Hne. destruct (Hc Hne) as (c & _ & -> & _). by eexists.
Qed.

Lemma checks_come_first_witness :
  let P := Reference.platform in
  let r := mkRoute [] My.post_login in
  let env := mkEnv 0 (Some (mkErr (Some "ECONNREFUSED") "connect")) None in
  let req := mkRequest ∅ {[ "email" := JStr "aoi@example.org" ]} 0 None in
  let db := mkDb [] 1 in
  app MariaDB POST_login = Some r /\ run_guards (guards r) env req = Next req /\
  check POST_login (body req) = Some login_fields_error /\
  run_route r env req db = (Ok (StatusJson 400 login_fields_error), db).
Proof.
  intros P r env req db.
  assert (Hcheck : check POST_login (body req) = Some login_fields_error)
    by (vm_compute; reflexivity).
  split; [reflexivity|]. split; [reflexivity|]. split; [exact Hcheck|].
  exact (checks_come_first MariaDB POST_login r env req req db login_fields_error
           eq_refl eq_refl Hcheck).
Defined.

(** X2: when the store cannot be reached or fails on the statement, every
    route but the registration answers a request that passed guards and
    check with 500 and the generic payload, and the store is left as it
    was. *)
Theorem store_failure_500 `{Platform} (v : Driver) (ep : Endpoint) (r : Route)
    (env : Env) (req req' : Request) (db : Db) :
  app v ep = Some r -> ep <> POST_users ->
  run_guards (guards r) env req = Next req' ->
  check ep (body req) = None -> store_down env ->
  run_route r env req db = (Ok (StatusJson 500 server_error), db).
Proof.
  intros Happ Hep Hg Hcheck Hdown.
  destruct (guards_pass v ep r env req req' Happ Hg) as (-> & Hbody & _ & _ & Hc).
  apply (handler_store_down v ep); [done|done|by rewrite Hbody| |done].
  intros Hne. destruct (Hc Hne) as (c & _ & -> & _). by eexists.
Qed.

Lemma store_failure_500_witness :
  let P := Reference.platform in
  let r := mkRoute [] Pg.post_login in
  let env := mkEnv 0 None (Some (mkErr (Some "57P01") "terminating connection")) in
  let req := mkRequest ∅ {[ "email" := JStr "aoi@example.org";
                             "password" := JStr "password1" ]} 0 None in
  let db := mkDb [] 1 in
  app PostgreSQL POST_login = Some r /\ POST_login <> POST_users /\
  run_guards (guards r) env req = Next req /\
  check POST_login (body req) = None /\ store_down env /\
  run_route r env req db = (Ok (StatusJson 500 server_error), db).
Proof.
  intros P r env req db.
  assert (Hep : POST_login <> POST_users) by discriminate.
  assert (Hcheck : check POST_login (body req) = None) by (vm_compute; reflexivity).
  assert (Hdown : store_down env) by (right; discriminate).
  split; [reflexivity|]. split; [exact Hep|]. split; [reflexivity|].
  split; [exact Hcheck|]. split; [exact Hdown|].
  exact (store_failure_500 PostgreSQL POST_login r env req req db
           eq_refl Hep eq_refl Hcheck Hdown).
Defined.

(** X3: a request changes the store only when it is a registration answered
    201, a password change answered 200, an update answered 200 or a
    deletion answered 204; login and list never change it, and no request
    answered with an error status does. *)
Theorem writes_only_on_success `{Platform} (v : Driver) (ep : Endpoint) (r : Route)
    (env : Env) (req : Request) (db db' : Db) (res : Response) :
  app v ep = Some r -> run_route r env req db = (Ok res, db') ->
  db' = db \/
  (ep = POST_users /\ status_of res = 201) \/
  (ep = PUT_users_me_password /\ status_of res = 200) \/
  (ep = PUT_users_id /\ status_of res = 200) \/
  (ep = DELETE_users_id /\ status_of res = 204).
Proof.
  intros Happ Hrun.
  destruct (run_guards (guards r) env req) as [req'|res'] eqn:Hg.
  2: { destruct (guards_stop v ep r env req res' db Happ Hg) as [Hstop _].
       rewrite Hstop in Hrun. left. by injection Hrun as _ <-. }
  destruct (guards_pass v ep r env req req' Happ Hg) as (Hh & Hbody & _ & _ & Hc).
  rewrite Hh in Hrun.
  assert (Huser : guards r <> [] -> is_Some (user req')).
  { intros Hne. destruct (Hc Hne) as (c & _ & -> & _). by eexists. }
  destruct (check ep (body req')) as [err|] eqn:Hcheck.
  { rewrite (handler_refused v ep r env req' db err Happ Hcheck Huser) in Hrun.
    left. by injection Hrun as _ <-. }
  destruct (store_up_or_down env) as [Hup|Hdown].
  2: { destruct (decide (ep = POST_users)) as [->|Hep].
       - destruct (post_users_store_down v r env req' db Happ Hdown) as (res0 & Hr & _).
         rewrite Hr in Hrun. left. by injection Hrun as _ <-.
       - rewrite (handler_store_down v ep r env req' db Happ Hep Hcheck Huser Hdown)
           in Hrun. left. by injection Hrun as _ <-. }
  pose proof (check_none _ _ Hcheck) as Hok.
  destruct ep; simpl in Hok.
  - rewrite (post_users_store_up v r env req' db Happ Hup Hok) in Hrun.
    destruct (bcrypt_hash _ _); [case_decide|]; injection Hrun as <- <-; auto 10.
  - assert (Hwf : login_well_formed (body req')).
    { unfold login_refused in Hok. apply orb_false_elim in Hok as [He Hp].
      split; by apply negb_false_iff. }
    assert (Hroute : run_route r env req' db = handler r env req' db)
      by (destruct v; injection Happ as <-; done).
    rewrite <- Hroute, (post_login_store_up v r env req' db Happ Hup Hwf) in Hrun.
    left. destruct (with_email _ _); [|destruct (bcrypt_compare _ _) as [[]|]];
      by injection Hrun as _ <-.
  - destruct Huser as [c Hu]; [by destruct v; injection Happ as <-|].
    rewrite (put_password_store_up v r env req' db c Happ Hup Hu Hok) in Hrun.
    destruct (bcrypt_hash _ _); injection Hrun as <- <-; auto 10.
  - rewrite (get_users_store_up v r env req' db Happ Hup) in Hrun.
    left. by injection Hrun as _ <-.
  - destruct v; [done|].
    rewrite (put_users_id_store_up r env req' db Happ Hup Hok) in Hrun.
    repeat case_decide; injection Hrun as <- <-; auto 10.
    left. by apply with_profile_absent.
  - rewrite (delete_store_up v r env req' db Happ Hup) in Hrun.
    destruct (filter _ _) as [|u l] eqn:Hf; injection Hrun as <- <-; simpl; auto 10.
    left. apply without_id_absent. intros u Hu Hid.
    by apply (filter_nil_not_elem_of _ _ u Hf Hid).
Qed.

Lemma writes_only_on_success_witness :
  let P := Reference.platform in
  let r := mkRoute [authenticateToken; authorizeAdmin] Pg.delete_users_id in
  let root := mkUser 1 (JStr "Root") (JStr "root@example.org") "$2b$password0" (JStr "admin") in
  let db := mkDb [root] 2 in
  let env := mkEnv 60 None None in
  let req := mkRequest {[ "authorization" := "Bearer " +:+ issued_token root 0 ]} ∅ 5 None in
  let res := StatusJson 404 not_found_error in
  app PostgreSQL DELETE_users_id = Some r /\
  run_route r env req db = (Ok res, db) /\
  (db = db \/
   (DELETE_users_id = POST_users /\ status_of res = 201) \/
   (DELETE_users_id = PUT_users_me_password /\ status_of res = 200) \/
   (DELETE_users_id = PUT_users_id /\ status_of res = 200) \/
   (DELETE_users_id = DELETE_users_id /\ status_of res = 204)).
Proof.
  intros P r root db env req res.
  assert (Hrun : run_route r env req db = (Ok res, db)) by (vm_compute; reflexivity).
  split; [reflexivity|]. split; [exact Hrun|].
  exact (writes_only_on_success PostgreSQL DELETE_users_id r env req db db res
           eq_refl Hrun).
Defined.

(** X4: a registration that passes the check, for an email that no record
    holds, with the store up and the password hashed by bcrypt, is answered
    201 with the store-assigned id and the name and email of the request; the
    table gains one record at its end, which holds the digest (not the
    password of the request) and the default role, and the records that were
    there stay as they were. *)
Theorem register_created `{Platform} (v : Driver) (r : Route)
    (env : Env) (req : Request) (db : Db) (d : string) :
  app v POST_users = Some r -> store_up env ->
  registration_refused (body req) = false ->
  bcrypt_hash (prop (body req) "password") 10 = Some d ->
  (prop (body req) "email" ∉ email <$> users db) ->
  let n := prop (body req) "name" in
  let e := prop (body req) "email" in
  exists db',
    run_route r env req db = (Ok (StatusJson 201 (created (next_id db) n e)), db') /\
    users db' = users db ++ [mkUser (next_id db) n e d default_role] /\
    next_id db' = next_id db + 1.
Proof.
  intros Happ Hup Hok Hd Hfresh n e.
  assert (Hroute : run_route r env req db = handler r env req db)
    by (destruct v; injection Happ as <-; done).
  rewrite Hroute, (post_users_store_up v r env req db Happ Hup Hok), Hd.
  rewrite decide_False by done. by eexists.
Qed.

Lemma register_created_witness :
  let P := Reference.platform in
  let r := mkRoute [] My.post_users in
  let env := mkEnv 0 None None in
  let req := mkRequest ∅ {[ "name" := JStr "Aoi"; "email" := JStr "aoi@example.org";
                             "password" := JStr "password1" ]} 0 None in
  let db := mkDb [] 7 in
  app MariaDB POST_users = Some r /\ store_up env /\
  registration_refused (body req) = false /\
  bcrypt_hash (prop (body req) "password") 10 = Some "$2b$password1" /\
  (prop (body req) "email" ∉ email <$> users db) /\
  exists db',
    run_route r env req db
    = (Ok (StatusJson 201 (created 7 (prop (body req) "name") (prop (body req) "email"))),
       db') /\
    users db' = [mkUser 7 (prop (body req) "name") (prop (body req) "email")
                   "$2b$password1" (JStr "user")] /\
    next_id db' = 8.
Proof.
  intros P r env req db.
  assert (Hup : store_up env) by (split; reflexivity).
  assert (Hok : registration_refused (body req) = false) by (vm_compute; reflexivity).
  assert (Hd : bcrypt_hash (prop (body req) "password") 10 = Some "$2b$password1")
    by (vm_compute; reflexivity).
  assert (Hfresh : prop (body req) "email" ∉ email <$> users db)
    by (simpl; apply not_elem_of_nil).
  split; [reflexivity|]. split; [exact Hup|]. split; [exact Hok|].
  split; [exact Hd|]. split; [exact Hfresh|].
  exact (register_created MariaDB r env req db "$2b$password1" eq_refl Hup Hok Hd Hfresh).
Defined.

(** X5: after a registration answered 201, a login with the same email is
    decided by bcrypt's comparison of the login password with the digest that
    the registration stored: 200 with a token over the new id, the email and
    the default role when it matches, 401 when it does not. *)
Theorem register_then_login `{Platform} (v : Driver) (r_reg r_login : Route)
    (env1 env2 : Env) (req1 req2 : Request) (db db1 : Db) (res1 : Response) :
  app v POST_users = Some r_reg -> app v POST_login = Some r_login ->
  run_route r_reg env1 req1 db = (Ok res1, db1) -> status_of res1 = 201 ->
  store_up env2 -> login_well_formed (body req2) ->
  prop (body req2) "email" = prop (body req1) "email" ->
  exists d,
    bcrypt_hash (prop (body req1) "password") 10 = Some d /\
    let u := mkUser (next_id db) (prop (body req1) "name") (prop (body req1) "email")
               d default_role in
    (bcrypt_compare (prop (body req2) "password") (JStr d) = Some true ->
       run_route r_login env2 req2 db1
       = (Ok (StatusJson 200 (login_success (issued_token u (now env2)))), db1)) /\
    (bcrypt_compare (prop (body req2) "password") (JStr d) = Some false ->
       run_route r_login env2 req2 db1 = (Ok (StatusJson 401 login_error), db1)).
Proof.
  intros Hreg Hlogin Hrun Hst Hup Hwf Hsame.
  destruct (post_users_created v r_reg env1 req1 db res1 db1 Hreg Hrun Hst)
    as (d & Hd & Hfresh & ->).
  exists d. split; [exact Hd|]. intros u.
  rewrite (post_login_store_up v r_login env2 req2 _ Hlogin Hup Hwf).
  assert (Hrows : with_email (prop (body req2) "email")
                    {| users := users db ++ [u]; next_id := next_id db + 1 |} = [u]).
  { rewrite Hsame. unfold with_email. simpl. rewrite filter_app.
    fold (with_email (prop (body req1) "email") db).
    rewrite (with_email_absent _ _ Hfresh). simpl.
    by rewrite filter_cons, decide_True. }
  fold u. rewrite Hrows. simpl. split; by intros ->.
Qed.

Lemma register_then_login_witness :
  let P := Reference.platform in
  let r_reg := mkRoute [] Pg.post_users in
  let r_login := mkRoute [] Pg.post_login in
  let env := mkEnv 0 None None in
  let req1 := mkRequest ∅ {[ "name" := JStr "Aoi"; "email" := JStr "aoi@example.org";
                              "password" := JStr "password1" ]} 0 None in
  let req2 := mkRequest ∅ {[ "email" := JStr "aoi@example.org";
                              "password" := JStr "password1" ]} 0 None in
  let db := mkDb [] 1 in
  let u := mkUser 1 (JStr "Aoi") (JStr "aoi@example.org") "$2b$password1" (JStr "user") in
  let db1 := mkDb [u] 2 in
  let res1 := StatusJson 201 (created 1 (JStr "Aoi") (JStr "aoi@example.org")) in
  app PostgreSQL POST_users = Some r_reg /\ app PostgreSQL POST_login = Some r_login /\
  run_route r_reg env req1 db = (Ok res1, db1) /\ status_of res1 = 201 /\
  store_up env /\ login_well_formed (body req2) /\
  prop (body req2) "email" = prop (body req1) "email" /\
  bcrypt_compare (prop (body req2) "password") (JStr "$2b$password1") = Some true /\
  run_route r_login env req2 db1
  = (Ok (StatusJson 200 (login_success (issued_token u 0))), db1).
Proof.
  intros P r_reg r_login env req1 req2 db u db1 res1.
  assert (Hrun : run_route r_reg env req1 db = (Ok res1, db1)) by (vm_compute; reflexivity).
  assert (Hup : store_up env) by (split; reflexivity).
  assert (Hwf : login_well_formed (body req2)) by (split; reflexivity).
  assert (Hsame : prop (body req2) "email" = prop (body req1) "email") by reflexivity.
  assert (Hcmp : bcrypt_compare (prop (body req2) "password") (JStr "$2b$password1")
                 = Some true) by (vm_compute; reflexivity).
  split; [reflexivity|]. split; [reflexivity|]. split; [exact Hrun|].
  split; [reflexivity|]. split; [exact Hup|]. split; [exact Hwf|].
  split; [exact Hsame|]. split; [exact Hcmp|].
  destruct (register_then_login PostgreSQL r_reg r_login env env req1 req2 db db1 res1
              eq_refl eq_refl Hrun eq_refl Hup Hwf Hsame) as (d & Hd & Hyes & _).
  assert (Hdig : d = "$2b$password1") by (vm_compute in Hd; congruence).
  subst d. exact (Hyes Hcmp).
Defined.

(** X6: the login handler answers 200 only when a stored record has the
    email of the request and bcrypt matched the password of the request
    against the digest of that record; the answer then carries the token
    issued for that record, and the store is as it was. *)
Theorem login_only_with_match `{Platform} (v : Driver) (r : Route)
    (env : Env) (req : Request) (db db' : Db) (res : Response) :
  app v POST_login = Some r ->
  run_route r env req db = (Ok res, db') -> status_of res = 200 ->
  exists u,
    u ∈ users db /\ email u = prop (body req) "email" /\
    bcrypt_compare (prop (body req) "password") (JStr (password u)) = Some true /\
    res = StatusJson 200 (login_success (issued_token u (now env))) /\ db' = db.
Proof. apply post_login_200. Qed.

Lemma login_only_with_match_witness :
  let P := Reference.platform in
  let r := mkRoute [] My.post_login in
  let env := mkEnv 0 None None in
  let u := mkUser 1 (JStr "Aoi") (JStr "aoi@example.org") "$2b$password1" (JStr "user") in
  let db := mkDb [u] 2 in
  let req := mkRequest ∅ {[ "email" := JStr "aoi@example.org";
                             "password" := JStr "password1" ]} 0 None in
  let res := StatusJson 200 (login_success (issued_token u 0)) in
  app MariaDB POST_login = Some r /\
  run_route r env req db = (Ok res, db) /\ status_of res = 200 /\
  exists u',
    u' ∈ users db /\ email u' = prop (body req) "email" /\
    bcrypt_compare (prop (body req) "password") (JStr (password u')) = Some true /\
    res = StatusJson 200 (login_success (issued_token u' (now env))) /\ db = db.
Proof.
  intros P r env u db req res.
  assert (Hrun : run_route r env req db = (Ok res, db)) by (vm_compute; reflexivity).
  split; [reflexivity|]. split; [exact Hrun|]. split; [reflexivity|].
  exact (login_only_with_match MariaDB r env req db db res eq_refl Hrun eq_refl).
Defined.

Lemma authenticated_run `{Platform} v r env req t c :
  app v PUT_users_me_password = Some r ->
  bearer_token (headers req !! "authorization") = Some t ->
  jwt_verify t JWT_SECRET (now env) = Ok c ->
  run_route r env req = handler r env (set_user req c).
Proof.
  intros Happ Ht Hv.
  pose proof (authenticateToken_cases env req) as Hc. rewrite Ht, Hv in Hc.
  destruct v; injection Happ as <-; unfold run_route; simpl; by rewrite Hc.
Qed.

Lemma with_password_absent d v db :
  (forall u, u ∈ users db -> ~ id_is v u) -> with_password d v db = db.
Proof.
  intros Habs. unfold with_password.
  assert (Hsame : (fun u => if decide (id_is v u) then set_password d u else u)
                  <$> users db = users db).
  { rewrite <- (list_fmap_id (users db)) at 2. apply list_fmap_ext.
    intros k u Hu. rewrite decide_False; [done|].
    apply Habs. by eapply list_elem_of_lookup_2. }
  rewrite Hsame. by destruct db.
Qed.

(** X7: an authenticated password change that passes the check, with the
    store up and the new password hashed, is answered 200; afterwards the
    table holds the records it held, those whose id is the id claim of the
    token with the new digest in the place of the old one and the others as
    they were (ids, names, emails and roles are kept, no record is added or
    lost).  The handler does not look at the number of records matched:
    when no record has that id the answer is still 200 and the store is as
    it was. *)
Theorem change_password_effect `{Platform} (v : Driver) (r : Route)
    (env : Env) (req : Request) (db : Db) (t : string) (c : Claims) (d : string) :
  app v PUT_users_me_password = Some r -> store_up env ->
  bearer_token (headers req !! "authorization") = Some t ->
  jwt_verify t JWT_SECRET (now env) = Ok c ->
  password_refused (body req) = false ->
  bcrypt_hash (prop (body req) "newPassword") 10 = Some d ->
  exists db',
    run_route r env req db = (Ok (StatusJson 200 password_changed), db') /\
    next_id db' = next_id db /\
    users db' ≡ₚ
      (fun u => if decide (c_id c = JNum (id u)) then set_password d u else u)
      <$> users db /\
    ((forall u, u ∈ users db -> c_id c <> JNum (id u)) -> db' = db).
Proof.
  intros Happ Hup Ht Hv Hok Hd.
  rewrite (authenticated_run v r env req t c Happ Ht Hv).
  rewrite (put_password_store_up v r env (set_user req c) db c Happ Hup eq_refl Hok).
  simpl. rewrite Hd. eexists. split; [done|]. split; [done|]. split.
  - done.
  - intros Habs. by apply with_password_absent.
Qed.

Lemma change_password_effect_witness :
  let P := Reference.platform in
  let r := mkRoute [authenticateToken] Pg.put_users_me_password in
  let root := mkUser 1 (JStr "Root") (JStr "root@example.org") "$2b$password0" (JStr "admin") in
  let aoi := mkUser 2 (JStr "Aoi") (JStr "aoi@example.org") "$2b$password1" (JStr "user") in
  let aoi' := mkUser 2 (JStr "Aoi") (JStr "aoi@example.org") "$2b$パスワード2345" (JStr "user") in
  let db := mkDb [root; aoi] 3 in
  let env := mkEnv 60 None None in
  let t := issued_token aoi 0 in
  let c := mkClaims (JNum 2) (JStr "aoi@example.org") (JStr "user") 3600 in
  let req := mkRequest {[ "authorization" := "Bearer " +:+ t ]}
               {[ "newPassword" := JStr "パスワード2345" ]} 0 None in
  app PostgreSQL PUT_users_me_password = Some r /\ store_up env /\
  bearer_token (headers req !! "authorization") = Some t /\
  jwt_verify t JWT_SECRET (now env) = Ok c /\
  password_refused (body req) = false /\
  bcrypt_hash (prop (body req) "newPassword") 10 = Some "$2b$パスワード2345" /\
  exists db',
    run_route r env req db = (Ok (StatusJson 200 password_changed), db') /\
    next_id db' = 3 /\ users db' ≡ₚ [root; aoi'] /\ db' <> db.
Proof.
  intros P r root aoi aoi' db env t c req.
  assert (Hup : store_up env) by (split; reflexivity).
  assert (Ht : bearer_token (headers req !! "authorization") = Some t)
    by (vm_compute; reflexivity).
  assert (Hv : jwt_verify t JWT_SECRET (now env) = Ok c) by (vm_compute; reflexivity).
  assert (Hok : password_refused (body req) = false) by (vm_compute; reflexivity).
  assert (Hd : bcrypt_hash (prop (body req) "newPassword") 10 = Some "$2b$パスワード2345")
    by (vm_compute; reflexivity).
  split; [reflexivity|]. split; [exact Hup|]. split; [exact Ht|]. split; [exact Hv|].
  split; [exact Hok|]. split; [exact Hd|].
  destruct (change_password_effect PostgreSQL r env req db t c "$2b$パスワード2345"
              eq_refl Hup Ht Hv Hok Hd) as (db' & Hrun & Hnext & Hperm & _).
  exists db'. split; [exact Hrun|]. split; [exact Hnext|]. split; [exact Hperm|].
  intros ->. apply Permutation_sym in Hperm.
  apply (Permutation_in aoi') in Hperm; [|right; left; reflexivity].
  simpl in Hperm. destruct Hperm as [[=]|[[=]|[]]].
Defined.

Lemma filter_email_absent e (l : list User) :
  e ∉ email <$> l -> filter (fun u => email u = e) l = [].
Proof.
  intros Habs. apply filter_none. intros u Hu He. apply Habs.
  rewrite <- He. by apply list_elem_of_fmap_2.
Qed.

(** With unique emails, the lookup by the email of a record yields that
    record alone. *)
Lemma with_email_unique u db :
  NoDup (email <$> users db) -> u ∈ users db -> with_email (email u) db = [u].
Proof.
  unfold with_email. induction (users db) as [|x l IH]; intros Hnd Hin.
  - by apply not_elem_of_nil in Hin.
  - rewrite fmap_cons in Hnd. apply NoDup_cons in Hnd as [Hx Hl].
    rewrite filter_cons. apply elem_of_cons in Hin as [->|Hin].
    + rewrite decide_True by done. by rewrite filter_email_absent.
    + rewrite decide_False; [by apply IH|].
      intros He. apply Hx. rewrite He. by apply list_elem_of_fmap_2.
Qed.

Lemma with_email_with_password e d v db :
  with_email e (with_password d v db) =
  (fun u => if decide (id_is v u) then set_password d u else u) <$> with_email e db.
Proof.
  unfold with_email, with_password. simpl.
  induction (users db) as [|x l IH]; [done|].
  rewrite fmap_cons, !filter_cons.
  assert (Hmail : email (if decide (id_is v x) then set_password d x else x) = email x)
    by (by case_decide).
  rewrite Hmail. rewrite IH. by destruct (decide (email x = e)).
Qed.

(** X8: after a password change for the record whose id is in the token, a
    login with the email of that record is decided by bcrypt's comparison
    with the new digest: the old digest plays no part any more.  Emails are
    unique in the table. *)
Theorem change_password_then_login `{Platform} (v : Driver) (r_pw r_login : Route)
    (env env2 : Env) (req req2 : Request) (db : Db)
    (t : string) (c : Claims) (d : string) (u : User) :
  app v PUT_users_me_password = Some r_pw -> app v POST_login = Some r_login ->
  store_up env -> store_up env2 ->
  bearer_token (headers req !! "authorization") = Some t ->
  jwt_verify t JWT_SECRET (now env) = Ok c ->
  password_refused (body req) = false ->
  bcrypt_hash (prop (body req) "newPassword") 10 = Some d ->
  NoDup (email <$> users db) -> u ∈ users db -> c_id c = JNum (id u) ->
  login_well_formed (body req2) -> prop (body req2) "email" = email u ->
  let db1 := (run_route r_pw env req db).2 in
  run_route r_login env2 req2 db1 =
  match bcrypt_compare (prop (body req2) "password") (JStr d) with
  | Some true => (Ok (StatusJson 200 (login_success (issued_token u (now env2)))), db1)
  | Some false => (Ok (StatusJson 401 login_error), db1)
  | None => (Ok (StatusJson 500 server_error), db1)
  end.
Proof.
  intros Hpw Hlogin Hup Hup2 Ht Hv Hok Hd Hnd Hin Hid Hwf Hmail db1.
  assert (Hdb1 : db1 = with_password d (c_id c) db).
  { subst db1. rewrite (authenticated_run v r_pw env req t c Hpw Ht Hv).
    rewrite (put_password_store_up v r_pw env (set_user req c) db c Hpw Hup eq_refl Hok).
    simpl. by rewrite Hd. }
  rewrite (post_login_store_up v r_login env2 req2 db1 Hlogin Hup2 Hwf).
  rewrite Hmail, Hdb1, with_email_with_password, (with_email_unique u db Hnd Hin).
  simpl. rewrite decide_True by exact Hid. simpl.
  by destruct (bcrypt_compare _ _) as [[]|].
Qed.

Lemma change_password_then_login_witness :
  let P := Reference.platform in
  let r_pw := mkRoute [authenticateToken] My.put_users_me_password in
  let r_login := mkRoute [] My.post_login in
  let aoi := mkUser 2 (JStr "Aoi") (JStr "aoi@example.org") "$2b$password1" (JStr "user") in
  let db := mkDb [aoi] 3 in
  let env := mkEnv 60 None None in
  let t := issued_token aoi 0 in
  let c := mkClaims (JNum 2) (JStr "aoi@example.org") (JStr "user") 3600 in
  let req := mkRequest {[ "authorization" := "Bearer " +:+ t ]}
               {[ "newPassword" := JStr "password2" ]} 0 None in
  let req2 := mkRequest ∅ {[ "email" := JStr "aoi@example.org";
                              "password" := JStr "password1" ]} 0 None in
  let db1 := mkDb [mkUser 2 (JStr "Aoi") (JStr "aoi@example.org") "$2b$password2"
                     (JStr "user")] 3 in
  app MariaDB PUT_users_me_password = Some r_pw /\ app MariaDB POST_login = Some r_login /\
  store_up env /\
  bearer_token (headers req !! "authorization") = Some t /\
  jwt_verify t JWT_SECRET (now env) = Ok c /\
  password_refused (body req) = false /\
  bcrypt_hash (prop (body req) "newPassword") 10 = Some "$2b$password2" /\
  NoDup (email <$> users db) /\ aoi ∈ users db /\ c_id c = JNum (id aoi) /\
  login_well_formed (body req2) /\ prop (body req2) "email" = email aoi /\
  (run_route r_pw env req db).2 = db1 /\
  run_route r_login env req2 db1 = (Ok (StatusJson 401 login_error), db1).
Proof.
  intros P r_pw r_login aoi db env t c req req2 db1.
  assert (Hup : store_up env) by (split; reflexivity).
  assert (Ht : bearer_token (headers req !! "authorization") = Some t)
    by (vm_compute; reflexivity).
  assert (Hv : jwt_verify t JWT_SECRET (now env) = Ok c) by (vm_compute; reflexivity).
  assert (Hok : password_refused (body req) = false) by (vm_compute; reflexivity).
  assert (Hd : bcrypt_hash (prop (body req) "newPassword") 10 = Some "$2b$password2")
    by (vm_compute; reflexivity).
  assert (Hnd : NoDup (email <$> users db)) by (simpl; apply NoDup_singleton).
  assert (Hin : aoi ∈ users db) by (simpl; left).
  assert (Hid : c_id c = JNum (id aoi)) by reflexivity.
  assert (Hwf : login_well_formed (body req2)) by (split; reflexivity).
  assert (Hmail : prop (body req2) "email" = email aoi) by reflexivity.
  assert (Hdb1 : (run_route r_pw env req db).2 = db1) by (vm_compute; reflexivity).
  split; [reflexivity|]. split; [reflexivity|]. split; [exact Hup|].
  split; [exact Ht|]. split; [exact Hv|]. split; [exact Hok|]. split; [exact Hd|].
  split; [exact Hnd|]. split; [exact Hin|]. split; [exact Hid|]. split; [exact Hwf|].
  split; [exact Hmail|]. split; [exact Hdb1|].
  pose proof (change_password_then_login MariaDB r_pw r_login env env req req2 db t c
                "$2b$password2" aoi eq_refl eq_refl Hup Hup Ht Hv Hok Hd Hnd Hin Hid
                Hwf Hmail) as Hlogin.
  cbv zeta in Hlogin. rewrite Hdb1 in Hlogin. rewrite Hlogin.
  vm_compute. reflexivity.
Defined.

Lemma fmap_profile_others n e ro i (l : list User) :
  (forall x, x ∈ l -> id x <> i) ->
  (fun u => if decide (id_is (JNum i) u) then set_profile n e ro u else u) <$> l = l.
Proof.
  intros Hne. rewrite <- (list_fmap_id l) at 2. apply list_fmap_ext.
  intros k x Hx. rewrite decide_False; [done|]. rewrite id_is_num.
  apply Hne. by eapply list_elem_of_lookup_2.
Qed.

(** With unique ids, the update rewrites one record in place. *)
Lemma with_profile_unique n e ro db u :
  NoDup (id <$> users db) -> u ∈ users db ->
  exists l1 l2,
    users db = l1 ++ u :: l2 /\
    (forall x, x ∈ l1 ++ l2 -> id x <> id u) /\
    users (with_profile n e ro (JNum (id u)) db) = l1 ++ set_profile n e ro u :: l2.
Proof.
  intros Hnd Hin. apply list_elem_of_split in Hin as (l1 & l2 & Hl).
  exists l1, l2. split; [done|].
  rewrite Hl, fmap_app, fmap_cons in Hnd.
  apply NoDup_app in Hnd as (_ & Hl1 & Hnd2). apply NoDup_cons in Hnd2 as [Hl2 _].
  assert (Hothers : forall x, x ∈ l1 ++ l2 -> id x <> id u).
  { intros x [Hx|Hx]%elem_of_app Heq.
    - apply (Hl1 (id x)); [by apply list_elem_of_fmap_2|]. rewrite Heq. left.
    - apply Hl2. rewrite <- Heq. by apply list_elem_of_fmap_2. }
  split; [done|]. unfold with_profile. simpl. rewrite Hl, fmap_app, fmap_cons.
  rewrite decide_True by (by apply id_is_num).
  rewrite !fmap_profile_others; [done|..];
    intros x Hx; apply Hothers, elem_of_app; auto.
Qed.

(** X9: the update handler of the MariaDB variant, for an admin-authorized
    request that passes the check, with the store up and a table with unique
    ids and emails.  An id that no record has is answered 404 and nothing
    changes.  An id that a record has is answered 200 with the id and the
    name, email and role of the request, and that one record is rewritten in
    place (its digest is kept), provided no other record holds the email;
    when another record holds it the answer is 500, not 409, and nothing
    changes. *)
Theorem update_user_outcomes `{Platform} (r : Route) (env : Env) (req : Request) (db : Db) :
  app MariaDB PUT_users_id = Some r -> store_up env -> admin_authorized env req ->
  profile_refused (body req) = false ->
  NoDup (id <$> users db) -> NoDup (email <$> users db) ->
  let n := prop (body req) "name" in
  let e := prop (body req) "email" in
  let ro := prop (body req) "role" in
  let i := params_id req in
  let out := run_route r env req db in
  (with_id i db = [] -> out = (Ok (StatusJson 404 not_found_error), db)) /\
  (forall u, u ∈ users db -> id u = i ->
     (forall u', u' ∈ users db -> email u' = e -> id u' = i) ->
     exists l1 l2,
       users db = l1 ++ u :: l2 /\
       out = (Ok (StatusJson 200 (updated i n e ro)),
              {| users := l1 ++ set_profile n e ro u :: l2; next_id := next_id db |})) /\
  (forall u u', u ∈ users db -> id u = i ->
     u' ∈ users db -> id u' <> i -> email u' = e ->
     out = (Ok (StatusJson 500 server_error), db)).
Proof.
  intros Happ Hup (t & c & Ht & Hv & Hrole) Hok Hids Hmails n e ro i out.
  assert (Hadm : admin_only PUT_users_id) by (right; by left).
  assert (Hout : out = handler r env (set_user req c) db).
  { subst out. by rewrite (admin_granted MariaDB _ r env req db t c Happ Hadm Ht Hv Hrole). }
  rewrite (put_users_id_store_up r env (set_user req c) db Happ Hup Hok) in Hout.
  cbv zeta in Hout.
  change (body (set_user req c)) with (body req) in Hout.
  change (params_id (set_user req c)) with (params_id req) in Hout.
  fold n e ro i in Hout. clearbody i out.
  split; [|split].
  - intros Hnil. rewrite Hout.
    rewrite (with_profile_absent n e ro i db Hnil).
    rewrite decide_True by done. by rewrite decide_True.
  - intros u Hin Hid Hfree. subst i.
    destruct (with_profile_unique n e ro db u Hids Hin) as (l1 & l2 & Hl & Hothers & Hl').
    exists l1, l2. split; [done|]. rewrite Hout.
    assert (Hfresh : forall x, x ∈ l1 ++ l2 -> email x <> e).
    { intros x Hx He. apply (Hothers x Hx). apply Hfree; [|done].
      rewrite Hl. apply elem_of_app in Hx as [?|?]; apply elem_of_app; [by left|].
      right. by right. }
    assert (Hnd' : NoDup (email <$> users (with_profile n e ro (JNum (id u)) db))).
    { rewrite Hl', fmap_app, fmap_cons. simpl.
      rewrite Hl, fmap_app, fmap_cons in Hmails.
      apply NoDup_app in Hmails as (Hn1 & Hdisj & Hn2).
      apply NoDup_cons in Hn2 as [_ Hn2].
      apply NoDup_app. split; [done|]. split.
      - intros m Hm [->|Hm2]%elem_of_cons.
        + apply list_elem_of_fmap in Hm as (x & He & Hx).
          apply (Hfresh x); [apply elem_of_app; by left|done].
        + apply (Hdisj m Hm). by right.
      - apply NoDup_cons. split; [|done].
        intros (x & He & Hx)%list_elem_of_fmap.
        apply (Hfresh x); [apply elem_of_app; by right|done]. }
    rewrite decide_True by done. rewrite decide_False.
    + do 2 f_equal. unfold with_profile in *. simpl in *. by rewrite Hl'.
    + intros Hnil. apply (filter_nil_not_elem_of _ _ u Hnil); [done|].
      rewrite Hl. apply elem_of_app. right. left.
  - intros u u' Hin Hid Hin' Hid' He. subst i. rewrite Hout.
    destruct (with_profile_unique n e ro db u Hids Hin) as (l1 & l2 & Hl & Hothers & Hl').
    rewrite decide_False; [done|]. rewrite Hl', fmap_app, fmap_cons. simpl.
    intros Hnd. apply NoDup_app in Hnd as (_ & Hdisj & Hnd2).
    apply NoDup_cons in Hnd2 as [Hnot _].
    rewrite Hl in Hin'. apply elem_of_app in Hin' as [Hx|Hx].
    + apply (Hdisj e); [|left]. rewrite <- He. by apply list_elem_of_fmap_2.
    + apply elem_of_cons in Hx as [->|Hx]; [done|].
      apply Hnot. rewrite <- He. by apply list_elem_of_fmap_2.
Qed.

Lemma update_user_outcomes_witness :
  let P := Reference.platform in
  let r := mkRoute [authenticateToken; authorizeAdmin] My.put_users_id in
  let root := mkUser 1 (JStr "Root") (JStr "root@example.org") "$2b$password0" (JStr "admin") in
  let aoi := mkUser 2 (JStr "Aoi") (JStr "aoi@example.org") "$2b$password1" (JStr "user") in
  let db := mkDb [root; aoi] 3 in
  let env := mkEnv 60 None None in
  let req := mkRequest {[ "authorization" := "Bearer " +:+ issued_token root 0 ]}
               {[ "name" := JStr "Aoi"; "email" := JStr "root@example.org";
                  "role" := JStr "user" ]} 2 None in
  app MariaDB PUT_users_id = Some r /\ store_up env /\ admin_authorized env req /\
  profile_refused (body req) = false /\
  NoDup (id <$> users db) /\ NoDup (email <$> users db) /\
  aoi ∈ users db /\ id aoi = params_id req /\
  root ∈ users db /\ id root <> params_id req /\
  email root = prop (body req) "email" /\
  run_route r env req db = (Ok (StatusJson 500 server_error), db).
Proof.
  intros P r root aoi db env req.
  assert (Hup : store_up env) by (split; reflexivity).
  assert (Hadm : admin_authorized env req).
  { exists (issued_token root 0),
      (mkClaims (JNum 1) (JStr "root@example.org") (JStr "admin") 3600).
    repeat split; vm_compute; reflexivity. }
  assert (Hok : profile_refused (body req) = false) by (vm_compute; reflexivity).
  assert (Hids : NoDup (id <$> users db)).
  { simpl. apply NoDup_cons. split; [|apply NoDup_singleton].
    rewrite list_elem_of_singleton. discriminate. }
  assert (Hmails : NoDup (email <$> users db)).
  { simpl. apply NoDup_cons. split; [|apply NoDup_singleton].
    rewrite list_elem_of_singleton. discriminate. }
  assert (Haoi : aoi ∈ users db) by (right; left).
  assert (Hroot : root ∈ users db) by left.
  assert (Hne : id root <> params_id req) by discriminate.
  split; [reflexivity|]. split; [exact Hup|]. split; [exact Hadm|]. split; [exact Hok|].
  split; [exact Hids|]. split; [exact Hmails|]. split; [exact Haoi|].
  split; [reflexivity|]. split; [exact Hroot|]. split; [exact Hne|].
  split; [reflexivity|].
  destruct (update_user_outcomes r env req db eq_refl Hup Hadm Hok Hids Hmails)
    as (_ & _ & Hclash).
  exact (Hclash aoi root Haoi eq_refl Hroot Hne eq_refl).
Defined.

(** X10: after an admin-authorized deletion with the store up, a second
    deletion of the same id is answered 404 and changes nothing, and (emails
    being unique) a login with the email of a deleted record is answered 401
    like a login with an email that was never stored. *)
Theorem delete_then_gone `{Platform} (v : Driver) (r_del r_login : Route)
    (env : Env) (req : Request) (db : Db) :
  app v DELETE_users_id = Some r_del -> app v POST_login = Some r_login ->
  store_up env -> admin_authorized env req ->
  let db1 := (run_route r_del env req db).2 in
  (forall env2 req2,
     store_up env2 -> admin_authorized env2 req2 -> params_id req2 = params_id req ->
     run_route r_del env2 req2 db1 = (Ok (StatusJson 404 not_found_error), db1)) /\
  (forall env3 req3 u,
     store_up env3 -> login_well_formed (body req3) ->
     NoDup (email <$> users db) -> u ∈ users db -> id u = params_id req ->
     prop (body req3) "email" = email u ->
     run_route r_login env3 req3 db1 = (Ok (StatusJson 401 login_error), db1)).
Proof.
  intros Hdel Hlogin Hup (t & c & Ht & Hv & Hrole) db1.
  assert (Hadm : admin_only DELETE_users_id) by (right; by right).
  assert (Hdb1 : db1 = without_id (params_id req) db).
  { subst db1. rewrite (admin_granted v _ r_del env req db t c Hdel Hadm Ht Hv Hrole).
    by rewrite (delete_store_up v r_del env (set_user req c) db Hdel Hup). }
  clearbody db1. subst db1. split.
  - intros env2 req2 Hup2 (t2 & c2 & Ht2 & Hv2 & Hrole2) Hid.
    rewrite (admin_granted v _ r_del env2 req2 _ t2 c2 Hdel Hadm Ht2 Hv2 Hrole2).
    rewrite (delete_store_up v r_del env2 (set_user req2 c2) _ Hdel Hup2). simpl.
    rewrite Hid.
    assert (Hgone : forall u, u ∈ users (without_id (params_id req) db) ->
              id u <> params_id req).
    { intros u Hu. unfold without_id in Hu. simpl in Hu.
      by apply list_elem_of_filter in Hu as [? _]. }
    rewrite (filter_none (fun u => id u = params_id req)) by (intros u Hu; by apply Hgone).
    simpl. by rewrite without_id_absent.
  - intros env3 req3 u Hup3 Hwf Hnd Hin Hid Hmail.
    rewrite (post_login_store_up v r_login env3 req3 _ Hlogin Hup3 Hwf).
    assert (Hnone : with_email (prop (body req3) "email")
                      (without_id (params_id req) db) = []).
    { unfold with_email. apply filter_none. intros x Hx He.
      unfold without_id in Hx. simpl in Hx.
      apply list_elem_of_filter in Hx as [Hne Hx].
      assert (Hxu : x ∈ with_email (email u) db).
      { unfold with_email. apply list_elem_of_filter. split; [congruence|done]. }
      rewrite (with_email_unique u db Hnd Hin) in Hxu.
      apply list_elem_of_singleton in Hxu. subst x. done. }
    by rewrite Hnone.
Qed.

Lemma delete_then_gone_witness :
  let P := Reference.platform in
  let r_del := mkRoute [authenticateToken; authorizeAdmin] Pg.delete_users_id in
  let r_login := mkRoute [] Pg.post_login in
  let root := mkUser 1 (JStr "Root") (JStr "root@example.org") "$2b$password0" (JStr "admin") in
  let aoi := mkUser 2 (JStr "Aoi") (JStr "aoi@example.org") "$2b$password1" (JStr "user") in
  let db := mkDb [root; aoi] 3 in
  let db1 := mkDb [root] 3 in
  let env := mkEnv 60 None None in
  let req := mkRequest {[ "authorization" := "Bearer " +:+ issued_token root 0 ]} ∅ 2 None in
  let req3 := mkRequest ∅ {[ "email" := JStr "aoi@example.org";
                              "password" := JStr "password1" ]} 0 None in
  app PostgreSQL DELETE_users_id = Some r_del /\ app PostgreSQL POST_login = Some r_login /\
  store_up env /\ admin_authorized env req /\
  (run_route r_del env req db).2 = db1 /\
  run_route r_del env req db1 = (Ok (StatusJson 404 not_found_error), db1) /\
  login_well_formed (body req3) /\ NoDup (email <$> users db) /\
  aoi ∈ users db /\ id aoi = params_id req /\ prop (body req3) "email" = email aoi /\
  run_route r_login env req3 db1 = (Ok (StatusJson 401 login_error), db1).
Proof.
  intros P r_del r_login root aoi db db1 env req req3.
  assert (Hup : store_up env) by (split; reflexivity).
  assert (Hadm : admin_authorized env req).
  { exists (issued_token root 0),
      (mkClaims (JNum 1) (JStr "root@example.org") (JStr "admin") 3600).
    repeat split; vm_compute; reflexivity. }
  assert (Hdb1 : (run_route r_del env req db).2 = db1) by (vm_compute; reflexivity).
  assert (Hwf : login_well_formed (body req3)) by (split; reflexivity).
  assert (Hnd : NoDup (email <$> users db)).
  { simpl. apply NoDup_cons. split; [|apply NoDup_singleton].
    rewrite list_elem_of_singleton. discriminate. }
  assert (Hin : aoi ∈ users db) by (right; left).
  destruct (delete_then_gone PostgreSQL r_del r_login env req db eq_refl eq_refl Hup Hadm)
    as (Hagain & Hlog).
  rewrite Hdb1 in Hagain, Hlog.
  split; [reflexivity|]. split; [reflexivity|]. split; [exact Hup|]. split; [exact Hadm|].
  split; [exact Hdb1|]. split; [exact (Hagain env req Hup Hadm eq_refl)|].
  split; [exact Hwf|]. split; [exact Hnd|]. split; [exact Hin|].
  split; [reflexivity|]. split; [reflexivity|].
  exact (Hlog env req3 aoi Hup Hwf Hnd Hin eq_refl eq_refl).
Defined.

(** * More on the token extraction *)

(** X11: [authenticateToken] answers 401 exactly when the request has no
    [authorization] header or the header is a non-empty string without a
    blank.  In particular an empty header value is not answered 401: its
    (empty) token goes to verification. *)
Theorem authenticate_401_iff `{Platform} (env : Env) (req : Request) :
  authenticateToken env req = Reply (SendStatus 401) <->
  headers req !! "authorization" = None \/
  exists s, headers req !! "authorization" = Some s /\ s <> "" /\
            free_of Ascii.Space s = true.
Proof.
  rewrite <- bearer_token_none.
  pose proof (authenticateToken_cases env req) as Hc.
  destruct (bearer_token _) as [t|]; [|by rewrite Hc].
  destruct (jwt_verify _ _ _); rewrite Hc; split; discriminate.
Qed.

(** X12: the guard does not look at the scheme word.  Whatever stands before
    the first blank of the header (also nothing), the piece between the first
    and the second blank is the token, and what follows is ignored: the
    outcome is that of verifying this piece. *)
Theorem authenticate_any_scheme `{Platform} (env : Env) (req : Request)
    (w t rest : string) :
  free_of Ascii.Space w = true -> free_of Ascii.Space t = true ->
  rest = "" \/ (exists rest', rest = String Ascii.Space rest') ->
  headers req !! "authorization" = Some (w +:+ String Ascii.Space (t +:+ rest)) ->
  authenticateToken env req =
  match jwt_verify t JWT_SECRET (now env) with
  | Ok c => Next (set_user req c)
  | Throw _ => Reply (SendStatus 403)
  end.
Proof.
  intros Hw Ht Hrest Hh.
  pose proof (authenticateToken_cases env req) as Hc. rewrite Hh in Hc.
  assert (Htok : bearer_token (Some (w +:+ String Ascii.Space (t +:+ rest))) = Some t).
  { unfold bearer_token.
    destruct (String.eqb_spec (w +:+ String Ascii.Space (t +:+ rest)) "") as [He|_].
    - exfalso. destruct w; discriminate.
    - rewrite split_prefix by done.
      destruct (split_head Ascii.Space t rest Ht Hrest) as [pieces ->]. done. }
  rewrite Htok in Hc. by destruct (jwt_verify _ _ _).
Qed.

Lemma authenticate_any_scheme_witness :
  let P := Reference.platform in
  let aoi := mkUser 2 (JStr "Aoi") (JStr "aoi@example.org") "$2b$password1" (JStr "user") in
  let t := issued_token aoi 0 in
  let env := mkEnv 60 None None in
  let req := mkRequest {[ "authorization" := "Basic " +:+ t +:+ " trailing words" ]} ∅ 0 None in
  free_of Ascii.Space "Basic" = true /\ free_of Ascii.Space t = true /\
  headers req !! "authorization"
    = Some ("Basic" +:+ String Ascii.Space (t +:+ " trailing words")) /\
  authenticateToken env req =
    Next (set_user req (mkClaims (JNum 2) (JStr "aoi@example.org") (JStr "user") 3600)).
Proof.
  intros P aoi t env req.
  assert (Hw : free_of Ascii.Space "Basic" = true) by reflexivity.
  assert (Ht : free_of Ascii.Space t = true) by (vm_compute; reflexivity).
  assert (Hh : headers req !! "authorization"
               = Some ("Basic" +:+ String Ascii.Space (t +:+ " trailing words")))
    by (vm_compute; reflexivity).
  split; [exact Hw|]. split; [exact Ht|]. split; [exact Hh|].
  rewrite (authenticate_any_scheme env req "Basic" t " trailing words" Hw Ht
             (or_intror (ex_intro _ "trailing words" eq_refl)) Hh).
  vm_compute. reflexivity.
Defined.

(** X13: when the environment variable [JWT_SECRET] is unset or empty, the
    key is the literal of the source: a token that anybody signs with that
    literal over a payload with role ['admin'] passes both guards of the
    admin-only routes for an hour. *)
Theorem fallback_secret_admin `{Platform} `{!TokenService}
    (p : Payload) (iat : Z) (env : Env) (req : Request) :
  env_JWT_SECRET = None \/ env_JWT_SECRET = Some "" ->
  p_role p = JStr "admin" ->
  presents req (jwt_sign p "a_default_fallback_secret" (mkSignOptions "1h") iat) ->
  now env < iat + 3600 ->
  run_guards [authenticateToken; authorizeAdmin] env req =
  Next (set_user req (mkClaims (p_id p) (p_email p) (p_role p) (iat + 3600))).
Proof.
  intros Henv Hrole Hreq Hnow.
  assert (Hkey : JWT_SECRET = "a_default_fallback_secret").
  { unfold JWT_SECRET. by destruct Henv as [-> | ->]. }
  pose proof (authenticateToken_cases env req) as Hc.
  rewrite Hreq, bearer_token_scheme in Hc by apply sign_compact.
  rewrite Hkey, verify_fresh in Hc by done.
  simpl. rewrite Hc, authorizeAdmin_cases. simpl. by rewrite decide_True.
Qed.

Lemma fallback_secret_admin_witness :
  let P := Reference.platform in
  let p := mkPayload (JNum 99) (JStr "mallory@example.org") (JStr "admin") in
  let env := mkEnv 10 None None in
  let t := jwt_sign p "a_default_fallback_secret" (mkSignOptions "1h") 0 in
  let req := mkRequest {[ "authorization" := "Bearer " +:+ t ]} ∅ 1 None in
  (env_JWT_SECRET = None \/ env_JWT_SECRET = Some "") /\
  p_role p = JStr "admin" /\ presents req t /\ now env < 0 + 3600 /\
  run_guards [authenticateToken; authorizeAdmin] env req =
  Next (set_user req (mkClaims (JNum 99) (JStr "mallory@example.org") (JStr "admin") 3600)).
Proof.
  intros P p env t req.
  assert (Henv : env_JWT_SECRET = None \/ env_JWT_SECRET = Some "") by (left; reflexivity).
  assert (Hreq : presents req t) by (vm_compute; reflexivity).
  assert (Hnow : now env < 0 + 3600) by (simpl; lia).
  split; [exact Henv|]. split; [reflexivity|]. split; [exact Hreq|]. split; [exact Hnow|].
  exact (@fallback_secret_admin P reference_token_service p 0 env req Henv eq_refl Hreq Hnow).
Defined.

(** X14: whatever requests are served one after the other, by either
    variant and under whatever conditions, the table keeps unique ids and
    unique emails, and every id stays below the next id to assign. *)
Theorem constraints_invariant `{Platform} (v : Driver) (calls : list Call) (db : Db) :
  db_ok db -> db_ok (serve v calls db).
Proof.
  revert db. induction calls as [|[[ep env] req] rest IH]; intros db Hok; [done|].
  simpl. apply IH. destruct (app v ep) as [r|] eqn:Happ; [|done].
  destruct (run_route r env req db) as [out db'] eqn:Hrun.
  exact (routes_keep_constraints v ep r env req Happ db out db' Hok Hrun).
Qed.

Lemma constraints_invariant_witness :
  let P := Reference.platform in
  let env := mkEnv 0 None None in
  let reg := mkRequest ∅ {[ "name" := JStr "Aoi"; "email" := JStr "aoi@example.org";
                             "password" := JStr "password1" ]} 0 None in
  let calls := [(POST_users, env, reg); (POST_users, env, reg)] in
  db_ok (mkDb [] 1) /\
  users (serve PostgreSQL calls (mkDb [] 1))
    = [mkUser 1 (JStr "Aoi") (JStr "aoi@example.org") "$2b$password1" (JStr "user")] /\
  db_ok (serve PostgreSQL calls (mkDb [] 1)).
Proof.
  intros P env reg calls.
  split; [apply empty_db_ok|]. split; [vm_compute; reflexivity|].
  exact (constraints_invariant PostgreSQL calls (mkDb [] 1) (empty_db_ok 1)).
Defined.

(** X15: when bcrypt rejects the comparison (it does not resolve to a
    boolean), a login with a stored email is answered 500 with the generic
    payload, where the same login with an email that is not stored is
    answered 401: in that case the answers tell stored emails from unknown
    ones. *)
Theorem login_comparison_rejected `{Platform} (v : Driver) (r : Route)
    (env : Env) (req req0 : Request) (db : Db) (u : User) (l : list User) :
  app v POST_login = Some r -> store_up env ->
  login_well_formed (body req) -> login_well_formed (body req0) ->
  with_email (prop (body req) "email") db = u :: l ->
  bcrypt_compare (prop (body req) "password") (JStr (password u)) = None ->
  (prop (body req0) "email" ∉ email <$> users db) ->
  run_route r env req db = (Ok (StatusJson 500 server_error), db) /\
  run_route r env req0 db = (Ok (StatusJson 401 login_error), db).
Proof.
  intros Happ Hup Hwf Hwf0 Hrows Hcmp Hunknown.
  rewrite !(post_login_store_up v r env _ db Happ Hup) by done.
  rewrite Hrows, Hcmp. by rewrite (with_email_absent _ _ Hunknown).
Qed.

Lemma login_comparison_rejected_witness :
  let P := Reference.platform in
  let r := mkRoute [] Pg.post_login in
  let env := mkEnv 0 None None in
  let aoi := mkUser 2 (JStr "Aoi") (JStr "aoi@example.org") "$2b$password1" (JStr "user") in
  let db := mkDb [aoi] 3 in
  let req := mkRequest ∅ {[ "email" := JStr "aoi@example.org"; "password" := JNum 1 ]}
               0 None in
  let req0 := mkRequest ∅ {[ "email" := JStr "nobody@example.org"; "password" := JNum 1 ]}
                0 None in
  app PostgreSQL POST_login = Some r /\ store_up env /\
  login_well_formed (body req) /\ login_well_formed (body req0) /\
  with_email (prop (body req) "email") db = [aoi] /\
  bcrypt_compare (prop (body req) "password") (JStr (password aoi)) = None /\
  (prop (body req0) "email" ∉ email <$> users db) /\
  run_route r env req db = (Ok (StatusJson 500 server_error), db) /\
  run_route r env req0 db = (Ok (StatusJson 401 login_error), db).
Proof.
  intros P r env aoi db req req0.
  assert (Hup : store_up env) by (split; reflexivity).
  assert (Hwf : login_well_formed (body req)) by (split; reflexivity).
  assert (Hwf0 : login_well_formed (body req0)) by (split; reflexivity).
  assert (Hrows : with_email (prop (body req) "email") db = [aoi])
    by (vm_compute; reflexivity).
  assert (Hcmp : bcrypt_compare (prop (body req) "password") (JStr (password aoi)) = None)
    by (vm_compute; reflexivity).
  assert (Hunknown : prop (body req0) "email" ∉ email <$> users db).
  { simpl. rewrite list_elem_of_singleton. vm_compute. discriminate. }
  split; [reflexivity|]. split; [exact Hup|]. split; [exact Hwf|]. split; [exact Hwf0|].
  split; [exact Hrows|]. split; [exact Hcmp|]. split; [exact Hunknown|].
  exact (login_comparison_rejected PostgreSQL r env req req0 db aoi [] eq_refl Hup Hwf Hwf0
           Hrows Hcmp Hunknown).
Defined.

(** X16: the length check of the registration applies to strings only.  A
    password that is truthy and not a string (a non-zero number, [true]) has
    no [length], passes the check beside a name and an email, and is handed
    to bcrypt; when bcrypt rejects it (the store being up), the answer is
    500 and not 400, and nothing is stored. *)
Theorem length_check_strings_only `{Platform} (v : Driver) (r : Route)
    (env : Env) (req : Request) (db : Db) :
  app v POST_users = Some r ->
  truthy (prop (body req) "name") = true ->
  truthy (prop (body req) "email") = true ->
  truthy (prop (body req) "password") = true ->
  (forall s, prop (body req) "password" <> JStr s) ->
  check POST_users (body req) = None /\
  (store_up env -> bcrypt_hash (prop (body req) "password") 10 = None ->
     run_route r env req db = (Ok (StatusJson 500 server_error), db)).
Proof.
  intros Happ Hn He Hp Hstr.
  assert (Hok : registration_refused (body req) = false).
  { unfold registration_refused. rewrite Hn, He, Hp. simpl.
    destruct (prop (body req) "password") as [| | | |s]; try done. by destruct (Hstr s). }
  split; [simpl; by rewrite Hok|]. intros Hup Hrej.
  assert (Hroute : run_route r env req db = handler r env req db)
    by (destruct v; injection Happ as <-; done).
  by rewrite Hroute, (post_users_store_up v r env req db Happ Hup Hok), Hrej.
Qed.

Lemma length_check_strings_only_witness :
  let P := Reference.platform in
  let r := mkRoute [] Pg.post_users in
  let env := mkEnv 0 None None in
  let req := mkRequest ∅ {[ "name" := JStr "Aoi"; "email" := JStr "aoi@example.org";
                             "password" := JNum 1234 ]} 0 None in
  let db := mkDb [] 1 in
  app PostgreSQL POST_users = Some r /\
  truthy (prop (body req) "name") = true /\
  truthy (prop (body req) "email") = true /\
  truthy (prop (body req) "password") = true /\
  (forall s, prop (body req) "password" <> JStr s) /\
  store_up env /\ bcrypt_hash (prop (body req) "password") 10 = None /\
  check POST_users (body req) = None /\
  run_route r env req db = (Ok (StatusJson 500 server_error), db).
Proof.
  intros P r env req db.
  assert (Hstr : forall s, prop (body req) "password" <> JStr s)
    by (intros s; vm_compute; discriminate).
  assert (Hup : store_up env) by (split; reflexivity).
  assert (Hrej : bcrypt_hash (prop (body req) "password") 10 = None)
    by (vm_compute; reflexivity).
  destruct (length_check_strings_only PostgreSQL r env req db eq_refl eq_refl eq_refl
              eq_refl Hstr) as (Hcheck & H500).
  split; [reflexivity|]. split; [reflexivity|]. split; [reflexivity|].
  split; [reflexivity|]. split; [exact Hstr|]. split; [exact Hup|]. split; [exact Hrej|].
  split; [exact Hcheck|]. exact (H500 Hup Hrej).
Defined.
